(** * Reaction Time Tester (STM32F429ZI, Mbed OS): the interrupt-driven FSM

    A shallow embedding of [Reaction_Time_Tester.cpp].  The global variables
    of the program become one record, every handler ([tick], [blinkRed],
    [user], [external], [reaction1]) becomes a function on that record, and
    the interrupt sources become the events of a step function. *)

From Stdlib Require Import ZArith Bool List String Ascii Lia DecimalString.
From Stdlib Require DecimalFacts DecimalPos DecimalN Nnat.
Import ListNotations.

Local Open Scope Z_scope.

(** ** Machine integers *)

Module CInt.

Definition INT_MAX : Z := 2147483647.

(** Value of an integer converted to [uint64_t]. *)
Definition to_uint64 (z : Z) : Z := z mod 2 ^ 64.

(** Value of an integer converted to [int] (32 bits, two's complement). *)
Definition to_int (z : Z) : Z := (z + 2 ^ 31) mod 2 ^ 32 - 2 ^ 31.

(** [elapsed < pB] with [elapsed : uint64_t] and [pB : int]: the usual
    arithmetic conversions turn the [int] into a [uint64_t] first. *)
Definition lt_u64_int (e p : Z) : bool := e <? to_uint64 p.

End CInt.
Import CInt.

(** ** Text written by [sprintf] *)

Module Fmt.

Local Open Scope string_scope.

(** ["%llu"] *)
Definition llu (z : Z) : string := NilZero.string_of_uint (N.to_uint (Z.to_N z)).

(** ["%d"] *)
Definition d (z : Z) : string := NilZero.string_of_int (Z.to_int z).

Definition time_taken (e : Z) : string := "The time taken was " ++ llu e ++ " ms".

Definition personal_best (p : Z) : string := "Personal Best: " ++ d p ++ " ms".

End Fmt.

(** ** The room of the two text buffers *)

(** [sizeof(bufferElapsed)] and [sizeof(bufferpB)]. *)
Definition sizeof_buffer : nat := 32.

(** A text fits a buffer when there is room for it and its terminating
    zero. *)
Definition fits (s : string) : Prop := (String.length s + 1 <= sizeof_buffer)%nat.

Definition fitsb (s : string) : bool := (String.length s + 1 <=? sizeof_buffer)%nat.

(** ** The Mbed OS collaborators: [Timer] and [Timeout] *)

(** The callbacks the program hands to [timeout.attach]. *)
Inductive Callback : Type :=
  | CbTick
  | CbBlinkRed.

(** Modelled from the spec: the Stopwatch ([Timer t] of Mbed OS, whose class
    is not part of the sources).  It has a running flag, the instant of the
    last start and the accumulated duration, all in microseconds.  [starts]
    is a ghost counter of the calls of [start()]. *)
Record Timer : Type := mkTimer {
  running : bool;
  start_us : Z;
  acc_us : Z;
  starts : nat
}.

Module Stopwatch.

(** Modelled from the spec: the Stopwatch at process start. *)
Definition fresh : Timer := mkTimer false 0 0 0.

(** Modelled from the spec: the time gone by since the last start, while
    running. *)
Definition slicetime (now : Z) (t : Timer) : Z :=
  if running t then now - start_us t else 0.

(** Modelled from the spec: [elapsed_time()], the elapsed duration. *)
Definition elapsed_time (now : Z) (t : Timer) : Z :=
  acc_us t + slicetime now t.

(** Modelled from the spec: [start()]; a running Stopwatch keeps its
    start instant. *)
Definition start (now : Z) (t : Timer) : Timer :=
  if running t
  then mkTimer true (start_us t) (acc_us t) (S (starts t))
  else mkTimer true now (acc_us t) (S (starts t)).

(** Modelled from the spec: [stop()] keeps the time measured so far. *)
Definition stop (now : Z) (t : Timer) : Timer :=
  mkTimer false (start_us t) (elapsed_time now t) (starts t).

(** Modelled from the spec: [reset()] sets the measured time back to zero. *)
Definition reset (now : Z) (t : Timer) : Timer :=
  mkTimer (running t) now 0 (starts t).

(** [duration_cast<milliseconds>(d).count()] of a microsecond count. *)
Definition millis (us : Z) : Z := Z.quot us 1000.

End Stopwatch.

(** Modelled from the spec: the Callback Scheduler ([Timeout timeout] of
    Mbed OS, whose class is not part of the sources).  One [Timeout] object
    is one slot: it holds at most one pending callback with the instant at
    which it is due.  [attach] replaces what the slot holds, [detach]
    empties it, and the hardware takes the callback out of the slot when it
    is due, before running it. *)
Definition Timeout : Type := option (Callback * Z).

Module Scheduler.

(** Modelled from the spec: [attach], the arming of a callback; what was
    pending is replaced. *)
Definition attach (cb : Callback) (delay now : Z) (s : Timeout) : Timeout :=
  Some (cb, now + delay).

(** Modelled from the spec: [detach], the cancelling of the slot. *)
Definition detach (s : Timeout) : Timeout := None.

(** Modelled from the spec: what the hardware does at instant [now]; a due
    callback leaves the slot and is handed over for execution, once. *)
Definition fire (now : Z) (s : Timeout) : option (Callback * Z) * Timeout :=
  match s with
  | Some (cb, due) => if due <=? now then (Some (cb, due), None) else (None, s)
  | None => (None, None)
  end.

(** Modelled from the spec: the firings of a slot that nobody re-arms,
    observed at the instants [ts] in turn. *)
Fixpoint firings (ts : list Z) (s : Timeout) : list (Callback * Z) :=
  match ts with
  | [] => []
  | now :: ts' =>
      match fire now s with
      | (Some f, s') => f :: firings ts' s'
      | (None, s') => firings ts' s'
      end
  end.

(** The callbacks pending in a slot. *)
Definition pending (s : Timeout) : list Callback :=
  match s with
  | Some (cb, _) => [cb]
  | None => []
  end.

End Scheduler.

(** ** The global variables *)

(** The two [char] arrays are kept as the text they hold for the display
    (up to the terminating zero); [lcd_clears] counts the calls of
    [LCD.Clear] and [now] is the clock the [Timer] and the [Timeout] read.
    [overrun] tells that a text has been written past the end of one of the
    two arrays: from then on the behaviour of the program is undefined, and
    the other fields are those of a machine whose arrays have room, not
    those of the real one, where the bytes in excess land in whatever global
    the linker has put next. *)
Record World : Type := mkWorld {
  state : Z;                 (* int state *)
  reaction : bool;           (* bool reaction *)
  pB : Z;                    (* int pB *)
  elapsed : Z;               (* uint64_t elapsed *)
  bufferElapsed : string;    (* char bufferElapsed[32], as C text *)
  bufferpB : string;         (* char bufferpB[32], as C text *)
  green : bool;              (* DigitalOut green *)
  red : bool;                (* DigitalOut red *)
  timeout : Timeout;         (* Timeout timeout *)
  t : Timer;                 (* Timer t *)
  lcd_clears : nat;          (* calls of LCD.Clear *)
  now : Z;                   (* the clock, in microseconds *)
  overrun : bool             (* a write went past the end of an array *)
}.

Definition set_state (v : Z) (w : World) : World :=
  mkWorld v (reaction w) (pB w) (elapsed w) (bufferElapsed w) (bufferpB w)
          (green w) (red w) (timeout w) (t w) (lcd_clears w) (now w) (overrun w).

Definition set_reaction (v : bool) (w : World) : World :=
  mkWorld (state w) v (pB w) (elapsed w) (bufferElapsed w) (bufferpB w)
          (green w) (red w) (timeout w) (t w) (lcd_clears w) (now w) (overrun w).

Definition set_pB (v : Z) (w : World) : World :=
  mkWorld (state w) (reaction w) v (elapsed w) (bufferElapsed w) (bufferpB w)
          (green w) (red w) (timeout w) (t w) (lcd_clears w) (now w) (overrun w).

Definition set_elapsed (v : Z) (w : World) : World :=
  mkWorld (state w) (reaction w) (pB w) v (bufferElapsed w) (bufferpB w)
          (green w) (red w) (timeout w) (t w) (lcd_clears w) (now w) (overrun w).

Definition set_bufferElapsed (v : string) (w : World) : World :=
  mkWorld (state w) (reaction w) (pB w) (elapsed w) v (bufferpB w)
          (green w) (red w) (timeout w) (t w) (lcd_clears w) (now w) (overrun w).

Definition set_bufferpB (v : string) (w : World) : World :=
  mkWorld (state w) (reaction w) (pB w) (elapsed w) (bufferElapsed w) v
          (green w) (red w) (timeout w) (t w) (lcd_clears w) (now w) (overrun w).

Definition set_green (v : bool) (w : World) : World :=
  mkWorld (state w) (reaction w) (pB w) (elapsed w) (bufferElapsed w) (bufferpB w)
          v (red w) (timeout w) (t w) (lcd_clears w) (now w) (overrun w).

Definition set_red (v : bool) (w : World) : World :=
  mkWorld (state w) (reaction w) (pB w) (elapsed w) (bufferElapsed w) (bufferpB w)
          (green w) v (timeout w) (t w) (lcd_clears w) (now w) (overrun w).

Definition set_timeout (v : Timeout) (w : World) : World :=
  mkWorld (state w) (reaction w) (pB w) (elapsed w) (bufferElapsed w) (bufferpB w)
          (green w) (red w) v (t w) (lcd_clears w) (now w) (overrun w).

Definition set_t (v : Timer) (w : World) : World :=
  mkWorld (state w) (reaction w) (pB w) (elapsed w) (bufferElapsed w) (bufferpB w)
          (green w) (red w) (timeout w) v (lcd_clears w) (now w) (overrun w).

Definition set_lcd_clears (v : nat) (w : World) : World :=
  mkWorld (state w) (reaction w) (pB w) (elapsed w) (bufferElapsed w) (bufferpB w)
          (green w) (red w) (timeout w) (t w) v (now w) (overrun w).

Definition set_now (v : Z) (w : World) : World :=
  mkWorld (state w) (reaction w) (pB w) (elapsed w) (bufferElapsed w) (bufferpB w)
          (green w) (red w) (timeout w) (t w) (lcd_clears w) v (overrun w).

Definition set_overrun (v : bool) (w : World) : World :=
  mkWorld (state w) (reaction w) (pB w) (elapsed w) (bufferElapsed w) (bufferpB w)
          (green w) (red w) (timeout w) (t w) (lcd_clears w) (now w) v.

(** ** Statements *)

(** A statement transforms the globals; [c1 ;; c2] runs [c1], then [c2]. *)
Definition Cmd : Type := World -> World.

Definition seq (c1 c2 : Cmd) : Cmd := fun w => c2 (c1 w).

Definition ite (b : World -> bool) (c1 c2 : Cmd) : Cmd :=
  fun w => if b w then c1 w else c2 w.

Definition skip : Cmd := fun w => w.

Declare Scope cmd_scope.
Delimit Scope cmd_scope with cmd.
Bind Scope cmd_scope with Cmd.
Notation "c1 ;; c2" := (seq c1 c2) (at level 61, right associativity) : cmd_scope.
Notation "'IF' b 'THEN' c1 'ELSE' c2" := (ite b c1 c2)
  (at level 62, right associativity, b at level 9, c1 at level 61) : cmd_scope.

(** The calls into Mbed OS, on the objects [t], [timeout] and [LCD]. *)
Definition t_start : Cmd := fun w => set_t (Stopwatch.start (now w) (t w)) w.
Definition t_stop : Cmd := fun w => set_t (Stopwatch.stop (now w) (t w)) w.
Definition t_reset : Cmd := fun w => set_t (Stopwatch.reset (now w) (t w)) w.
Definition t_elapsed_ms (w : World) : Z :=
  Stopwatch.millis (Stopwatch.elapsed_time (now w) (t w)).
Definition timeout_attach (cb : Callback) (delay_us : Z) : Cmd :=
  fun w => set_timeout (Scheduler.attach cb delay_us (now w) (timeout w)) w.
Definition LCD_Clear : Cmd := fun w => set_lcd_clears (S (lcd_clears w)) w.

(** [sprintf(bufferElapsed, ...)] and [sprintf(bufferpB, ...)] write the
    text and its terminating zero from the start of an array of 32 [char]s,
    without looking at its size.  A text that has no room there runs over
    the end of the array, which the world records in [overrun]. *)
Definition sprintf_bufferElapsed (text : World -> string) : Cmd :=
  fun w => set_bufferElapsed (text w)
             (if fitsb (text w) then w else set_overrun true w).

Definition sprintf_bufferpB (text : World -> string) : Cmd :=
  fun w => set_bufferpB (text w)
             (if fitsb (text w) then w else set_overrun true w).

Local Open Scope cmd_scope.

(** ** The functions of the program *)

(** [void reaction1()] *)
Definition reaction1 : Cmd :=
  set_elapsed 0 ;;
  set_green true ;;
  t_start ;;
  set_reaction true.

(** [void blinkRed()] *)
Definition blinkRed : Cmd :=
  (fun w => set_red (negb (red w)) w) ;;
  timeout_attach CbBlinkRed 300000.

(** [void tick()] *)
Definition tick : Cmd :=
  IF (fun w => state w =? 0) THEN
    (fun w => set_green (negb (green w)) w) ;;
    timeout_attach CbTick 100000
  ELSE IF (fun w => state w =? 1) THEN
    set_reaction false ;;
    t_reset
  ELSE IF (fun w => state w =? 2) THEN
    blinkRed
  ELSE skip.

(** The guard of the second branch of [user()]:
    [state == 1 && reaction == true && elapsed >= 0]. *)
Definition valid_press (w : World) : bool :=
  (state w =? 1) && Bool.eqb (reaction w) true && (0 <=? elapsed w).

(** The body of the second branch of [user()]. *)
Definition user_valid_press : Cmd :=
  t_stop ;;
  (fun w => set_elapsed (to_uint64 (t_elapsed_ms w)) w) ;;
  sprintf_bufferElapsed (fun w => Fmt.time_taken (elapsed w)) ;;
  (IF (fun w => lt_u64_int (elapsed w) (pB w)) THEN
     (fun w => set_pB (to_int (elapsed w)) w)
   ELSE skip) ;;
  sprintf_bufferpB (fun w => Fmt.personal_best (pB w)) ;;
  set_green false ;;
  set_state 2 ;;
  tick.

(** [void user()] *)
Definition user : Cmd :=
  IF (fun w => state w =? 0) THEN
    set_state 1 ;;
    set_green false ;;
    tick
  ELSE IF valid_press THEN
    user_valid_press
  ELSE IF (fun w => state w =? 2) THEN
    set_state 0 ;;
    set_red false ;;
    tick
  ELSE
    set_state 0 ;;
    tick.

(** [void external()], up to the call of [tick()] that re-enters Idle. *)
Definition external_clear : Cmd :=
  set_state 0 ;;
  set_pB INT_MAX ;;
  set_elapsed 0 ;;
  set_reaction false ;;
  set_bufferElapsed EmptyString ;;
  set_bufferpB EmptyString ;;
  LCD_Clear ;;
  set_red false.

(** [void external()] *)
Definition external : Cmd :=
  external_clear ;;
  tick.

(** The globals as their initialisers leave them. *)
Definition globals : World :=
  mkWorld 0 false INT_MAX 0 EmptyString EmptyString false false None
          Stopwatch.fresh 0 0 false.

(** [int main()] before the handlers are attached. *)
Definition main_init : Cmd :=
  set_green false ;;
  set_red false.

(** [int main()], up to its display loop, when no interrupt comes in
    between. *)
Definition main_setup : Cmd :=
  main_init ;;
  tick.

Definition initial : World := main_setup globals.

(** ** Events *)

Definition run_callback (cb : Callback) : Cmd :=
  match cb with
  | CbTick => tick
  | CbBlinkRed => blinkRed
  end.

(** The [Timeout] interrupt: a due callback is taken out of the slot and run. *)
Definition timeout_irq : Cmd := fun w =>
  match Scheduler.fire (now w) (timeout w) with
  | (Some (cb, _), s) => run_callback cb (set_timeout s w)
  | (None, _) => w
  end.

Inductive Event : Type :=
  | Press            (* falling edge on the user button *)
  | Reset            (* falling edge on the external button *)
  | Fire             (* the Timeout interrupt *)
  | Elapse (d : N).  (* d microseconds go by *)

Definition step (e : Event) : Cmd :=
  match e with
  | Press => user
  | Reset => external
  | Fire => timeout_irq
  | Elapse d => fun w => set_now (now w + Z.of_N d) w
  end.

Definition run (es : list Event) (w : World) : World :=
  fold_left (fun w e => step e w) es w.

(** [main] attaches the handlers before it calls [tick()], so that events
    can already come in between. *)
Inductive starting : World -> Prop :=
  | start_main : starting (main_init globals)
  | start_step : forall e w, starting w -> starting (step e w).

(** The worlds the display loop of [main] can see. *)
Inductive reachable : World -> Prop :=
  | reach_tick : forall w, starting w -> reachable (tick w)
  | reach_step : forall e w, reachable w -> reachable (step e w).

(** ** Invariants *)

(** The ranges the two fields of the Reaction Record stay in: [pB] is an
    [int] that starts at [INT_MAX] and only goes down to measured values,
    [elapsed] is a [uint64_t]. *)
Definition record_ok (w : World) : Prop :=
  0 <= pB w <= INT_MAX /\ 0 <= elapsed w < 2 ^ 64.

(** What holds as long as [reaction1] has not run. *)
Definition never_armed (w : World) : Prop :=
  reaction w = false /\ running (t w) = false /\ starts (t w) = 0%nat /\
  state w <> 2 /\ elapsed w = 0 /\ pB w = INT_MAX.

(** What [tick], [blinkRed] and the [Timeout] interrupt leave alone. *)
Record same_record (w w' : World) : Prop := {
  same_state : state w' = state w;
  same_pB : pB w' = pB w;
  same_elapsed : elapsed w' = elapsed w;
  same_bufferElapsed : bufferElapsed w' = bufferElapsed w;
  same_bufferpB : bufferpB w' = bufferpB w;
  same_running : running (t w') = running (t w);
  same_starts : starts (t w') = starts (t w);
  same_now : now w' = now w
}.

(** ** The rules as the specification words them *)

(** The update rule of the Reaction Record: the best time becomes the
    measured one when it is "none" ([INT_MAX]) or the measured one is
    smaller, and stays otherwise. *)
Definition spec_best (best e : Z) : Z :=
  if (best =? INT_MAX) || (e <? best) then e else best.

(** Row Idle of the transition table: a press cancels blink-idle, turns the
    actuator off, resets the Stopwatch and starts it once. *)
Definition spec_idle_press (w : World) : Prop :=
  state (user w) = 1 /\
  timeout (user w) = None /\
  green (user w) = false /\
  Stopwatch.elapsed_time (now (user w)) (t (user w)) = 0 /\
  running (t (user w)) = true /\
  starts (t (user w)) = S (starts (t w)).

(** Row "any" of the transition table: reset clears the record and the
    buffers, has both actuators off before Idle is re-entered, and leaves
    as only pending callback the idle blink armed on re-entering Idle. *)
Definition spec_reset (w : World) : Prop :=
  state (external w) = 0 /\
  timeout (external w) = Some (CbTick, now w + 100000) /\
  pB (external w) = INT_MAX /\
  elapsed (external w) = 0 /\
  bufferElapsed (external w) = EmptyString /\
  bufferpB (external w) = EmptyString /\
  green (external_clear w) = false /\
  red (external_clear w) = false.

(** ** Sample worlds *)

(** The measurable phase: [reaction1] has run at instant 0 in state 1 with
    best time [best], and [us] microseconds have gone by since. *)
Definition measuring (best us : Z) : World :=
  set_now us (reaction1 (set_pB best (set_state 1 globals))).

(** ** Runs, capacities and further invariants *)

(** [int r = std::rand() % 5 + 1;], the global of the earlier version of the
    program, as a function of the value [std::rand()] returns. *)
Definition r_init (rand_value : Z) : Z := to_int (Z.rem rand_value 5 + 1).

(** The first digit of a numeral is not 0. *)
Definition leading_nonzero (d : Decimal.uint) : Prop :=
  match d with
  | Decimal.Nil | Decimal.D0 _ => False
  | _ => True
  end.

(** [n] periods of [p] microseconds, the [Timeout] interrupt coming at the
    end of each. *)
Fixpoint periods (n : nat) (p : N) : list Event :=
  match n with
  | O => []
  | S n' => Elapse p :: Fire :: periods n' p
  end.

(** The events that come without anybody touching a button. *)
Definition untouched (e : Event) : bool :=
  match e with
  | Fire | Elapse _ => true
  | Press | Reset => false
  end.

Definition not_reset (e : Event) : bool :=
  match e with
  | Reset => false
  | _ => true
  end.

(** The complete blink is pending exactly in state 2, and in state 0 the
    idle blink is pending. *)
Definition blink_inv (w : World) : Prop :=
  (state w = 2 <-> exists due, timeout w = Some (CbBlinkRed, due)) /\
  (state w = 0 -> exists due, timeout w = Some (CbTick, due)).

(** As long as no array has been overrun, the two lines of the display are
    both empty, or the first shows a measured time below 10^9 ms and the
    second the current best time, which is not above the time shown. *)
Definition display_ok (w : World) : Prop :=
  overrun w = false ->
  (bufferElapsed w = EmptyString /\ bufferpB w = EmptyString) \/
  (exists e, 0 <= e < 10 ^ 9 /\
     bufferElapsed w = Fmt.time_taken e /\
     bufferpB w = Fmt.personal_best (pB w) /\
     pB w <= e).

(** The microseconds that go by during a sequence of events. *)
Fixpoint waited (es : list Event) : Z :=
  match es with
  | [] => 0
  | Elapse d :: es' => Z.of_N d + waited es'
  | _ :: es' => waited es'
  end.

(** Nothing of a result is shown: empty lines, red actuator off, no complete
    blink pending. *)
Definition dark (w : World) : Prop :=
  bufferElapsed w = EmptyString /\ bufferpB w = EmptyString /\
  red w = false /\ (forall due, timeout w <> Some (CbBlinkRed, due)).

(** ** Proof tools *)

Ltac program :=
  unfold user, user_valid_press, external, external_clear,
    main_setup, main_init, tick, blinkRed, reaction1, valid_press, t_start, t_stop,
    t_reset, t_elapsed_ms, timeout_attach, LCD_Clear, sprintf_bufferElapsed,
    sprintf_bufferpB, seq, ite, skip.

Ltac world w :=
  destruct w as [st re pb el be bp gr rd to tm lc nw ov]; cbn [state reaction pB
    elapsed bufferElapsed bufferpB green red timeout t lcd_clears now overrun] in *.

Ltac fields :=
  cbn [state reaction pB elapsed bufferElapsed bufferpB green red timeout t
    lcd_clears now overrun running start_us acc_us starts
    set_state set_reaction set_pB set_elapsed set_bufferElapsed set_bufferpB
    set_green set_red set_timeout set_t set_lcd_clears set_now set_overrun
    Stopwatch.start Stopwatch.stop Stopwatch.reset Stopwatch.elapsed_time
    Stopwatch.slicetime Scheduler.attach Scheduler.fire Scheduler.pending
    fst snd andb orb negb Bool.eqb] in *.

Ltac branch :=
  match goal with
  | |- context [if ?x =? ?y then _ else _] =>
      let E := fresh "E" in destruct (Z.eqb_spec x y) as [E | E];
      [try rewrite E in * | ]
  | |- context [if ?x <=? ?y then _ else _] =>
      let E := fresh "E" in destruct (Z.leb_spec x y) as [E | E]
  | |- context [if ?x <? ?y then _ else _] =>
      let E := fresh "E" in destruct (Z.ltb_spec x y) as [E | E]
  | |- context [if ?b then _ else _] =>
      let E := fresh "E" in destruct b eqn:E
  end; fields.

(** *** Conversions *)

Lemma to_uint64_range z : 0 <= to_uint64 z < 2 ^ 64.
Proof. unfold to_uint64. apply Z.mod_pos_bound. reflexivity. Qed.

Lemma to_uint64_small z : 0 <= z < 2 ^ 64 -> to_uint64 z = z.
Proof. intros H. unfold to_uint64. now apply Z.mod_small. Qed.

Lemma to_int_small z : - 2 ^ 31 <= z < 2 ^ 31 -> to_int z = z.
Proof.
  intros H. unfold to_int.
  rewrite Z.mod_small; lia.
Qed.

Lemma to_int_range z : - 2 ^ 31 <= to_int z <= INT_MAX.
Proof.
  unfold to_int, INT_MAX.
  pose proof (Z.mod_pos_bound (z + 2 ^ 31) (2 ^ 32) eq_refl). lia.
Qed.

(** *** Decimal texts and their lengths *)

Module Digits.

Import Decimal.

Lemma usize_nb_digits d :
  DecimalPos.Unsigned.usize d = N.of_nat (nb_digits d).
Proof.
  induction d; cbn [DecimalPos.Unsigned.usize nb_digits];
    rewrite ?IHd, ?Nnat.Nat2N.inj_succ; reflexivity.
Qed.

Lemma of_lu_below d :
  (DecimalPos.Unsigned.of_lu d < 10 ^ DecimalPos.Unsigned.usize d)%N.
Proof.
  induction d; cbn [DecimalPos.Unsigned.of_lu DecimalPos.Unsigned.usize];
    rewrite ?N.pow_succ_r'; [cbn | ..]; lia.
Qed.

(** A numeral of [k] digits is below [10 ^ k]. *)
Lemma of_uint_below d : (Pos.of_uint d < 10 ^ N.of_nat (nb_digits d))%N.
Proof.
  rewrite DecimalPos.Unsigned.of_uint_alt, <- (DecimalFacts.nb_digits_rev d),
    <- usize_nb_digits.
  apply of_lu_below.
Qed.

(** A numeral of [k + 1] digits whose first digit is not 0 is at least
    [10 ^ k]. *)
Lemma of_uint_above d :
  leading_nonzero d -> (10 ^ N.of_nat (Nat.pred (nb_digits d)) <= Pos.of_uint d)%N.
Proof.
  intros L. rewrite DecimalPos.Unsigned.of_uint_alt.
  destruct d; try contradiction; unfold rev; cbn [revapp nb_digits Nat.pred];
    rewrite DecimalPos.Unsigned.of_lu_revapp, <- usize_nb_digits;
    cbn [DecimalPos.Unsigned.of_lu]; lia.
Qed.

Lemma to_uint_leading_nonzero p : leading_nonzero (Pos.to_uint p).
Proof.
  pose proof (DecimalPos.Unsigned.to_of (Pos.to_uint p)) as N.
  rewrite DecimalPos.Unsigned.of_to in N. cbn [N.to_uint] in N.
  pose proof (DecimalPos.Unsigned.to_uint_nonzero p) as Z.
  pose proof (DecimalPos.Unsigned.to_uint_nonnil p) as E.
  destruct (Pos.to_uint p) as [ | d | d | d | d | d | d | d | d | d | d];
    cbn; trivial; try contradiction.
  rewrite DecimalFacts.unorm_D0 in N.
  destruct d as [ | d | d | d | d | d | d | d | d | d | d];
    try (now elim Z);
    match type of N with
    | ?x = unorm ?y =>
        assert (Q : y <> Nil) by discriminate;
        pose proof (DecimalFacts.nb_digits_unorm y Q) as B;
        rewrite <- N in B; cbn [nb_digits] in B; lia
    end.
Qed.

(** The decimal numeral of a positive number below [10 ^ k] has at most [k]
    digits, and that of a number from [10 ^ k] on has more than [k]. *)
Lemma digits_of_positive p k :
  ((N.pos p < 10 ^ N.of_nat k)%N -> (nb_digits (Pos.to_uint p) <= k)%nat) /\
  ((10 ^ N.of_nat k <= N.pos p)%N -> (k < nb_digits (Pos.to_uint p))%nat).
Proof.
  pose proof (of_uint_below (Pos.to_uint p)) as U.
  pose proof (of_uint_above (Pos.to_uint p) (to_uint_leading_nonzero p)) as L.
  rewrite DecimalPos.Unsigned.of_to in U, L.
  split; intros H.
  - destruct (Nat.le_gt_cases (nb_digits (Pos.to_uint p)) k) as [ | G]; [assumption | ].
    assert (10 ^ N.of_nat k <= 10 ^ N.of_nat (Nat.pred (nb_digits (Pos.to_uint p))))%N
      by (apply N.pow_le_mono_r; lia).
    lia.
  - destruct (Nat.le_gt_cases (nb_digits (Pos.to_uint p)) k) as [G | ]; [ | assumption].
    assert (10 ^ N.of_nat (nb_digits (Pos.to_uint p)) <= 10 ^ N.of_nat k)%N
      by (apply N.pow_le_mono_r; lia).
    lia.
Qed.

Lemma length_string_of_uint d :
  String.length (NilEmpty.string_of_uint d) = nb_digits d.
Proof. induction d; cbn; congruence. Qed.

Lemma length_nilzero d :
  d <> Nil -> String.length (NilZero.string_of_uint d) = nb_digits d.
Proof.
  intros H. destruct d; try contradiction; apply length_string_of_uint.
Qed.

Lemma length_append (s1 s2 : string) :
  String.length (s1 ++ s2) = (String.length s1 + String.length s2)%nat.
Proof. induction s1 as [ | c s1 IH]; cbn; congruence. Qed.

End Digits.

Lemma time_taken_length e :
  0 <= e ->
  (String.length (Fmt.time_taken e) <= 31)%nat <-> e < 10 ^ 9.
Proof.
  intros He. unfold Fmt.time_taken, Fmt.llu.
  rewrite !Digits.length_append. cbn [String.length].
  destruct e as [ | p | p]; [cbn; lia | | lia].
  cbn [Z.to_N N.to_uint].
  rewrite Digits.length_nilzero by apply DecimalPos.Unsigned.to_uint_nonnil.
  destruct (Digits.digits_of_positive p 9) as [A B].
  change (10 ^ N.of_nat 9)%N with 1000000000%N in A, B.
  change (10 ^ 9) with 1000000000.
  split; intros H.
  - destruct (Z.lt_ge_cases (Z.pos p) 1000000000) as [ | G]; [assumption | ].
    assert (9 < Decimal.nb_digits (Pos.to_uint p))%nat by (apply B; lia). lia.
  - assert (Decimal.nb_digits (Pos.to_uint p) <= 9)%nat by (apply A; lia). lia.
Qed.

Lemma personal_best_length p :
  - 2 ^ 31 <= p < 2 ^ 31 ->
  (String.length (Fmt.personal_best p) <= 29)%nat.
Proof.
  intros Hp. unfold Fmt.personal_best, Fmt.d.
  rewrite !Digits.length_append. cbn [String.length].
  destruct p as [ | q | q]; [cbn; lia | | ];
    cbn [Z.to_int NilZero.string_of_int String.length];
    rewrite Digits.length_nilzero by apply DecimalPos.Unsigned.to_uint_nonnil;
    destruct (Digits.digits_of_positive q 10) as [A _];
    change (10 ^ N.of_nat 10)%N with 10000000000%N in A;
    assert (Decimal.nb_digits (Pos.to_uint q) <= 10)%nat by (apply A; lia); lia.
Qed.

(** *** What the blink callbacks leave alone *)

Lemma same_record_refl w : same_record w w.
Proof. now constructor. Qed.

Lemma same_record_trans w1 w2 w3 :
  same_record w1 w2 -> same_record w2 w3 -> same_record w1 w3.
Proof. intros [] []. constructor; congruence. Qed.

Lemma blinkRed_same w : same_record w (blinkRed w).
Proof. world w. now constructor. Qed.

Lemma tick_same w : same_record w (tick w).
Proof.
  world w. program. fields.
  repeat (branch; try (now constructor)).
Qed.

Lemma tick_reaction w :
  reaction (tick w) = if state w =? 1 then false else reaction w.
Proof. world w. program. fields. repeat (branch; try reflexivity; try lia). Qed.

Lemma blinkRed_overrun w : overrun (blinkRed w) = overrun w.
Proof. world w. reflexivity. Qed.

Lemma tick_overrun w : overrun (tick w) = overrun w.
Proof. world w. program. fields. repeat (branch; try reflexivity). Qed.

(** The [Timeout] interrupt either finds nothing due, or runs the one
    callback that was pending, on an emptied slot. *)
Lemma timeout_irq_cases w :
  timeout_irq w = w \/
  exists cb due, timeout w = Some (cb, due) /\ due <= now w /\
    timeout_irq w = run_callback cb (set_timeout None w).
Proof.
  unfold timeout_irq, Scheduler.fire.
  destruct (timeout w) as [[cb due] | ]; [ | now left].
  destruct (Z.leb_spec due (now w)); [ | now left].
  right. now exists cb, due.
Qed.

Lemma run_callback_same cb w : same_record w (run_callback cb w).
Proof. destruct cb; [apply tick_same | apply blinkRed_same]. Qed.

Lemma timeout_irq_same w : same_record w (timeout_irq w).
Proof.
  destruct (timeout_irq_cases w) as [-> | (cb & due & _ & _ & ->)].
  - apply same_record_refl.
  - apply (same_record_trans _ (set_timeout None w)); [now constructor | ].
    apply run_callback_same.
Qed.

Lemma timeout_irq_reaction w :
  reaction (timeout_irq w) = reaction w \/ reaction (timeout_irq w) = false.
Proof.
  destruct (timeout_irq_cases w) as [-> | (cb & due & _ & _ & ->)]; [now left | ].
  destruct cb; cbn [run_callback].
  - rewrite tick_reaction. destruct (state _ =? 1); [now right | now left].
  - now left.
Qed.

(** *** The FSM state variable *)

Lemma user_state w : In (state (user w)) [0; 1; 2].
Proof.
  world w. program. fields.
  repeat (branch; try (cbn; tauto)).
Qed.

Lemma external_state w : state (external w) = 0.
Proof. world w. reflexivity. Qed.

(** Every event either leaves [state] alone or writes 0, 1 or 2 to it. *)
Lemma step_state e w :
  state (step e w) = state w \/ In (state (step e w)) [0; 1; 2].
Proof.
  destruct e; cbn [step].
  - right. apply user_state.
  - right. rewrite external_state. cbn. tauto.
  - left. apply timeout_irq_same.
  - left. reflexivity.
Qed.

(** *** The completion press, field by field *)

Lemma fitsb_fits s : fitsb s = true <-> fits s.
Proof. unfold fitsb, fits. apply Nat.leb_le. Qed.

Lemma valid_press_state w : valid_press w = true -> state w = 1.
Proof.
  unfold valid_press. intros H.
  apply andb_prop in H as [H _]. apply andb_prop in H as [H _].
  now apply Z.eqb_eq.
Qed.

Lemma user_on_valid_press w : valid_press w = true -> user w = user_valid_press w.
Proof.
  intros V. unfold user, ite. rewrite V, (valid_press_state w V). reflexivity.
Qed.

(** The stopwatch reads the same just after [stop()] as just before. *)
Lemma t_elapsed_ms_stop w : t_elapsed_ms (t_stop w) = t_elapsed_ms w.
Proof.
  world w. unfold t_elapsed_ms, t_stop. fields.
  unfold Stopwatch.elapsed_time, Stopwatch.stop, Stopwatch.slicetime.
  cbn [running acc_us start_us]. now rewrite Z.add_0_r.
Qed.

(** What the second branch of [user()] leaves in each global. *)
Lemma user_valid_press_fields w :
  let e := to_uint64 (t_elapsed_ms w) in
  let p := if lt_u64_int e (pB w) then to_int e else pB w in
  state (user_valid_press w) = 2 /\
  elapsed (user_valid_press w) = e /\
  pB (user_valid_press w) = p /\
  bufferElapsed (user_valid_press w) = Fmt.time_taken e /\
  bufferpB (user_valid_press w) = Fmt.personal_best p /\
  overrun (user_valid_press w) =
    (overrun w || negb (fitsb (Fmt.time_taken e)) || negb (fitsb (Fmt.personal_best p))) /\
  green (user_valid_press w) = false /\
  running (t (user_valid_press w)) = false /\
  reaction (user_valid_press w) = reaction w /\
  timeout (user_valid_press w) = Some (CbBlinkRed, now w + 300000).
Proof.
  intros e p. unfold user_valid_press, seq. cbv beta.
  rewrite t_elapsed_ms_stop. fold e. clearbody e.
  unfold sprintf_bufferElapsed, sprintf_bufferpB, ite, skip, t_stop.
  world w. subst p. fields.
  unfold tick, ite, seq, skip, blinkRed, timeout_attach.
  destruct (fitsb (Fmt.time_taken e)); fields;
    destruct (lt_u64_int e pb); fields;
    match goal with
    | |- context [fitsb (Fmt.personal_best ?q)] => destruct (fitsb (Fmt.personal_best q))
    end; fields; cbn [Z.eqb Pos.eqb]; fields; destruct ov; repeat split.
Qed.

(** What the other branches of [user()] leave alone. *)
Lemma user_invalid_same w :
  valid_press w = false ->
  pB (user w) = pB w /\
  bufferElapsed (user w) = bufferElapsed w /\
  bufferpB (user w) = bufferpB w /\
  elapsed (user w) = elapsed w /\
  overrun (user w) = overrun w.
Proof.
  intros V. unfold user, ite. rewrite V. unfold seq.
  repeat match goal with
         | |- context [if ?c then _ else _] => destruct c
         end;
    match goal with |- context [tick ?x] =>
      destruct (tick_same x) as [_ -> -> -> -> _ _ _]; rewrite (tick_overrun x)
    end;
    repeat split.
Qed.

(** What the completion branch writes: the stopwatch's milliseconds into
    [elapsed], and into [pB] the outcome of the comparison [elapsed < pB]. *)
Lemma user_valid_press_record w :
  record_ok w ->
  let e := to_uint64 (t_elapsed_ms w) in
  elapsed (user_valid_press w) = e /\
  pB (user_valid_press w) = (if e <? pB w then e else pB w) /\
  state (user_valid_press w) = 2.
Proof.
  intros [Hp _] e.
  destruct (user_valid_press_fields w) as (S & E & P & _).
  pose proof (to_uint64_range (t_elapsed_ms w)) as R. fold e in R, E, P.
  split; [exact E | split; [ | exact S]].
  rewrite P. unfold lt_u64_int. unfold INT_MAX in Hp.
  rewrite (to_uint64_small (pB w)) by lia.
  destruct (Z.ltb_spec e (pB w)); [apply to_int_small; lia | reflexivity].
Qed.

Lemma user_record w :
  record_ok w -> valid_press w = true ->
  elapsed (user w) = to_uint64 (t_elapsed_ms w) /\
  pB (user w) = (if elapsed (user w) <? pB w then elapsed (user w) else pB w) /\
  state (user w) = 2.
Proof.
  intros Hok V. rewrite (user_on_valid_press w V).
  destruct (user_valid_press_record w Hok) as (E & P & S). cbv zeta in E, P.
  split; [exact E | split; [ | exact S]].
  rewrite E. exact P.
Qed.

(** *** The Reaction Record *)

Lemma record_ok_same w w' : same_record w w' -> record_ok w -> record_ok w'.
Proof. intros [] H. unfold record_ok in *. now rewrite same_pB0, same_elapsed0. Qed.

Lemma record_ok_step e w : record_ok w -> record_ok (step e w).
Proof.
  destruct e; cbn [step].
  - intros Hok. destruct (valid_press w) eqn:V.
    + destruct (user_record w Hok V) as (E & P & _).
      pose proof (to_uint64_range (t_elapsed_ms w)) as R. rewrite <- E in R.
      destruct Hok as [Hp _]. split; [ | exact R].
      rewrite P. destruct (Z.ltb_spec (elapsed (user w)) (pB w)); lia.
    + destruct (user_invalid_same w V) as (P & _ & _ & E & _).
      unfold record_ok. rewrite P, E. exact Hok.
  - intros _. unfold record_ok. world w. program. fields.
    branch; unfold INT_MAX; lia.
  - apply record_ok_same, timeout_irq_same.
  - unfold record_ok. world w. trivial.
Qed.

Lemma record_ok_tick w : record_ok w -> record_ok (tick w).
Proof. apply record_ok_same, tick_same. Qed.

Lemma record_ok_reaction1 w : record_ok w -> record_ok (reaction1 w).
Proof. unfold record_ok. world w. cbn. intros [H _]. split; [exact H | lia]. Qed.

Lemma record_ok_globals : record_ok (main_init globals).
Proof. unfold record_ok. cbn. unfold INT_MAX. lia. Qed.

Lemma record_ok_starting w : starting w -> record_ok w.
Proof.
  induction 1; [apply record_ok_globals | now apply record_ok_step].
Qed.

Lemma record_ok_reachable w : reachable w -> record_ok w.
Proof.
  induction 1 as [w H | e w H IH].
  - now apply record_ok_tick, record_ok_starting.
  - now apply record_ok_step.
Qed.

(** *** [reaction1] is never run *)

Lemma never_armed_globals : never_armed (main_init globals).
Proof. unfold never_armed. cbn. repeat split; discriminate. Qed.

Lemma never_armed_tick w : never_armed w -> never_armed (tick w).
Proof.
  intros (Hre & Hr & Hs & Hst & Hel & Hpb).
  destruct (tick_same w). pose proof (tick_reaction w) as R.
  destruct (state w =? 1) in R; unfold never_armed; repeat split; congruence.
Qed.

Lemma never_armed_step e w : never_armed w -> never_armed (step e w).
Proof.
  intros (Hre & Hr & Hs & Hst & Hel & Hpb). destruct e; cbn [step].
  - assert (V : valid_press w = false).
    { unfold valid_press. rewrite Hre. cbn. now rewrite andb_false_r. }
    unfold user, ite. rewrite V. unfold seq.
    repeat match goal with
           | |- context [state w =? ?k] => destruct (Z.eqb_spec (state w) k)
           end; try contradiction;
      match goal with
      | |- never_armed (tick ?w') =>
          destruct (tick_same w'); pose proof (tick_reaction w') as R;
          unfold never_armed; cbn in *
      end.
    all: repeat split; (congruence || discriminate).
  - destruct (tick_same (external_clear w)).
    pose proof (tick_reaction (external_clear w)) as R.
    unfold never_armed. cbn in *. repeat split; congruence.
  - destruct (timeout_irq_same w), (timeout_irq_reaction w) as [R | R].
    all: unfold never_armed; repeat split; congruence.
  - unfold never_armed. world w. cbn. repeat split; assumption.
Qed.

Lemma never_armed_starting w : starting w -> never_armed w.
Proof.
  induction 1; [apply never_armed_globals | now apply never_armed_step].
Qed.

Lemma never_armed_reachable w : reachable w -> never_armed w.
Proof.
  induction 1 as [w H | e w H IH].
  - now apply never_armed_tick, never_armed_starting.
  - now apply never_armed_step.
Qed.

(** ** The state variable and the dead reaction phase *)

Lemma reach_initial : reachable initial.
Proof. apply reach_tick, start_main. Qed.

Lemma reachable_run es w : reachable w -> reachable (run es w).
Proof.
  revert w. induction es as [ | e es IH]; intros w H; cbn; [assumption | ].
  apply IH. now constructor.
Qed.

(** C2. In every state reachable from the initial one by button presses,
    resets, scheduled callbacks and the passing of time, the FSM state
    variable is 0 (Idle), 1 (Armed) or 2 (Complete). *)
Theorem state_is_idle_armed_or_complete w :
  reachable w -> In (state w) [0; 1; 2].
Proof.
  assert (S : forall w0, starting w0 -> In (state w0) [0; 1; 2]).
  { induction 1 as [ | e w0 H0 IH].
    - cbn. tauto.
    - destruct (step_state e w0) as [-> | H]; assumption. }
  induction 1 as [w0 H0 | e w Hw IH].
  - destruct (tick_same w0) as [-> _]. now apply S.
  - destruct (step_state e w) as [-> | H]; assumption.
Qed.

Lemma state_is_idle_armed_or_complete_witness :
  In (state (run [Press; Elapse 150000; Fire; Press; Reset] initial)) [0; 1; 2].
Proof.
  apply (state_is_idle_armed_or_complete
           (run [Press; Elapse 150000; Fire; Press; Reset] initial)).
  apply reachable_run, reach_initial.
Defined.

Lemma reaction1_effect w :
  reaction (reaction1 w) = true /\ running (t (reaction1 w)) = true /\
  starts (t (reaction1 w)) = S (starts (t w)).
Proof.
  world w. program. fields. unfold Stopwatch.start.
  destruct (running tm); repeat split.
Qed.

(** C4. Starting from the initial state no sequence of events runs
    [reaction1]: the reaction flag is never true, the Timer is never
    started (no call of [start()], never running), the guard of the
    valid-press branch of [user] is never satisfied, no reachable world is
    one that [reaction1] returns, and [state] never becomes 2. *)
Theorem reaction_phase_is_dead w :
  reachable w ->
  reaction w = false /\
  starts (t w) = 0%nat /\
  running (t w) = false /\
  valid_press w = false /\
  (forall w0, w <> reaction1 w0) /\
  state w <> 2.
Proof.
  intros H. destruct (never_armed_reachable w H) as (Hre & Hr & Hs & Hst & _).
  repeat split; try assumption.
  - unfold valid_press. rewrite Hre. cbn. now rewrite andb_false_r.
  - intros w0 ->. destruct (reaction1_effect w0) as [E _]. congruence.
Qed.

Lemma reaction_phase_is_dead_witness :
  reaction (run [Press; Elapse 5000000; Press] initial) = false /\
  starts (t (run [Press; Elapse 5000000; Press] initial)) = 0%nat /\
  running (t (run [Press; Elapse 5000000; Press] initial)) = false /\
  valid_press (run [Press; Elapse 5000000; Press] initial) = false /\
  (forall w0, run [Press; Elapse 5000000; Press] initial <> reaction1 w0) /\
  state (run [Press; Elapse 5000000; Press] initial) <> 2.
Proof.
  apply (reaction_phase_is_dead (run [Press; Elapse 5000000; Press] initial)).
  apply reachable_run, reach_initial.
Defined.

(** ** The completion press and the Reaction Record *)

Lemma fits_time_taken e : 0 <= e -> (fits (Fmt.time_taken e) <-> e < 10 ^ 9).
Proof.
  intros He. rewrite <- (time_taken_length e He).
  unfold fits, sizeof_buffer. lia.
Qed.

Lemma fits_personal_best p : - 2 ^ 31 <= p < 2 ^ 31 -> fits (Fmt.personal_best p).
Proof.
  intros Hp. pose proof (personal_best_length p Hp).
  unfold fits, sizeof_buffer. lia.
Qed.

(** On a completion press only the text of the measured time can run over
    its array: the one of the best time, an [int], always has room. *)
Lemma completion_overrun w :
  record_ok w -> valid_press w = true ->
  overrun (user w) =
  (overrun w || negb (fitsb (Fmt.time_taken (to_uint64 (t_elapsed_ms w))))).
Proof.
  intros Hok V.
  destruct (record_ok_step Press w Hok) as [Hp _]. cbn [step] in Hp.
  rewrite (user_on_valid_press w V) in *.
  destruct (user_valid_press_fields w) as (_ & _ & P & _ & _ & O & _).
  rewrite O, <- P.
  assert (F : fitsb (Fmt.personal_best (pB (user_valid_press w))) = true).
  { apply fitsb_fits, fits_personal_best. unfold INT_MAX in Hp. lia. }
  rewrite F. cbn [negb]. apply orb_false_r.
Qed.

Lemma completion_defined w :
  record_ok w -> valid_press w = true ->
  fits (Fmt.time_taken (to_uint64 (t_elapsed_ms w))) ->
  overrun (user w) = overrun w /\ elapsed (user w) < 10 ^ 9.
Proof.
  intros Hok V F. destruct (user_record w Hok V) as (E & _).
  split.
  - rewrite (completion_overrun w Hok V).
    apply fitsb_fits in F. rewrite F. cbn [negb]. apply orb_false_r.
  - rewrite E. apply fits_time_taken; [apply to_uint64_range | exact F].
Qed.

(** C1. On a valid completion press (state Armed, reaction flag set) whose
    text has room in [bufferElapsed], the controller sets [elapsed] to the
    stopwatch's millisecond count and sets the best time by the update rule
    of the specification: to [elapsed] when the best time is "none"
    ([INT_MAX]) or [elapsed] is smaller, and to what it was otherwise; the
    machine moves to Complete, and nothing is written past an array. *)
Theorem completion_press w :
  record_ok w -> valid_press w = true ->
  fits (Fmt.time_taken (to_uint64 (t_elapsed_ms w))) ->
  elapsed (user w) = to_uint64 (t_elapsed_ms w) /\
  pB (user w) = spec_best (pB w) (elapsed (user w)) /\
  state (user w) = 2 /\
  overrun (user w) = overrun w.
Proof.
  intros Hok V F. destruct (user_record w Hok V) as (E & P & S).
  destruct (completion_defined w Hok V F) as (O & L).
  split; [exact E | split; [ | split; [exact S | exact O]]].
  rewrite P. unfold spec_best. destruct Hok as [Hp _]. unfold INT_MAX in *.
  destruct (Z.eqb_spec (pB w) 2147483647) as [Q | Q]; cbn [orb]; [ | reflexivity].
  rewrite Q. change (10 ^ 9) with 1000000000 in L.
  destruct (Z.ltb_spec (elapsed (user w)) 2147483647); [reflexivity | lia].
Qed.

Lemma completion_press_witness :
  record_ok (measuring 150 200000) /\
  valid_press (measuring 150 200000) = true /\
  fits (Fmt.time_taken (to_uint64 (t_elapsed_ms (measuring 150 200000)))) /\
  elapsed (user (measuring 150 200000)) = 200 /\
  pB (user (measuring 150 200000)) = 150 /\
  state (user (measuring 150 200000)) = 2 /\
  elapsed (user (measuring INT_MAX 237000)) = 237 /\
  pB (user (measuring INT_MAX 237000)) = 237.
Proof.
  assert (Hok : record_ok (measuring 150 200000))
    by (unfold record_ok, INT_MAX; cbn; lia).
  assert (V : valid_press (measuring 150 200000) = true) by (vm_compute; reflexivity).
  assert (F : fits (Fmt.time_taken (to_uint64 (t_elapsed_ms (measuring 150 200000)))))
    by (apply fitsb_fits; vm_compute; reflexivity).
  assert (Hok' : record_ok (measuring INT_MAX 237000))
    by (unfold record_ok, INT_MAX; cbn; lia).
  assert (V' : valid_press (measuring INT_MAX 237000) = true) by (vm_compute; reflexivity).
  assert (F' : fits (Fmt.time_taken (to_uint64 (t_elapsed_ms (measuring INT_MAX 237000)))))
    by (apply fitsb_fits; vm_compute; reflexivity).
  destruct (completion_press (measuring 150 200000) Hok V F) as (E & P & S & _).
  destruct (completion_press (measuring INT_MAX 237000) Hok' V' F') as (E' & P' & _).
  split; [exact Hok | split; [exact V | split; [exact F | ]]].
  rewrite P, E, S, P', E'. vm_compute. repeat split.
Defined.

Lemma user_pB_le w : record_ok w -> pB (user w) <= pB w.
Proof.
  intros Hok. destruct (valid_press w) eqn:V.
  - destruct (user_record w Hok V) as (_ & -> & _).
    destruct (Z.ltb_spec (elapsed (user w)) (pB w)); lia.
  - unfold user, ite. rewrite V. unfold seq.
    repeat match goal with
           | |- context [if ?c then _ else _] => destruct c
           end;
      match goal with |- context [tick ?x] => destruct (tick_same x) end;
      rewrite same_pB0; cbn; lia.
Qed.

(** C5. No operation of the controller other than the reset increases the
    best time (the reset puts [INT_MAX], "none", back), and right after the
    completion update the best time is at most the last time. *)
Theorem best_time_never_increases w e :
  record_ok w ->
  (e <> Reset -> pB (step e w) <= pB w) /\
  pB (tick w) = pB w /\
  pB (blinkRed w) = pB w /\
  pB (reaction1 w) = pB w /\
  pB (external w) = INT_MAX /\
  (valid_press w = true -> pB (user w) <= elapsed (user w)).
Proof.
  intros Hok. split; [ | split; [ | split; [ | split; [ | split]]]].
  - intros Hne. destruct e; cbn [step].
    + now apply user_pB_le.
    + congruence.
    + destruct (timeout_irq_same w). lia.
    + cbn. lia.
  - apply tick_same.
  - apply blinkRed_same.
  - reflexivity.
  - unfold external, seq. destruct (tick_same (external_clear w)).
    rewrite same_pB0. reflexivity.
  - intros V. destruct (user_record w Hok V) as (_ & -> & _).
    destruct (Z.ltb_spec (elapsed (user w)) (pB w)); lia.
Qed.

Lemma best_time_never_increases_witness :
  record_ok (measuring 237 150000) /\
  pB (step Press (measuring 237 150000)) <= pB (measuring 237 150000) /\
  pB (user (measuring 237 150000)) <= elapsed (user (measuring 237 150000)).
Proof.
  assert (Hok : record_ok (measuring 237 150000))
    by (unfold record_ok, INT_MAX; cbn; lia).
  destruct (best_time_never_increases (measuring 237 150000) Press Hok)
    as (D & _ & _ & _ & _ & L).
  split; [exact Hok | split].
  - apply D. discriminate.
  - apply L. reflexivity.
Defined.

(** C9. No elapsed time the program records equals the sentinel
    [INT_MAX]: from start-up on [elapsed] is 0 in every world and after
    every press, and a valid completion press whose text has room in
    [bufferElapsed] records an [elapsed] below 10^9 and leaves a best time
    that is not the sentinel either. *)
Theorem elapsed_is_never_the_sentinel w :
  (reachable w ->
   elapsed w = 0 /\ elapsed (user w) = 0 /\
   elapsed w <> INT_MAX /\ elapsed (user w) <> INT_MAX) /\
  (record_ok w -> valid_press w = true ->
   fits (Fmt.time_taken (to_uint64 (t_elapsed_ms w))) ->
   elapsed (user w) < 10 ^ 9 /\
   elapsed (user w) <> INT_MAX /\
   pB (user w) <> INT_MAX).
Proof.
  split.
  - intros H. destruct (never_armed_reachable w H) as (Hre & _ & _ & _ & E & _).
    assert (V : valid_press w = false).
    { unfold valid_press. rewrite Hre. cbn. now rewrite andb_false_r. }
    destruct (user_invalid_same w V) as (_ & _ & _ & E' & _).
    rewrite E', E. unfold INT_MAX. repeat split; discriminate.
  - intros Hok V F. destruct (completion_defined w Hok V F) as (_ & L).
    destruct (user_record w Hok V) as (_ & P & _).
    change (10 ^ 9) with 1000000000 in L. unfold INT_MAX.
    split; [exact L | split; [lia | ]].
    rewrite P. destruct Hok as [Hp _]. unfold INT_MAX in Hp.
    destruct (Z.ltb_spec (elapsed (user w)) (pB w)); lia.
Qed.

Lemma elapsed_is_never_the_sentinel_witness :
  elapsed (user (run [Press; Elapse 2000000] initial)) = 0 /\
  elapsed (user (measuring INT_MAX 999999999000)) < 10 ^ 9 /\
  elapsed (user (measuring INT_MAX 999999999000)) <> INT_MAX /\
  pB (user (measuring INT_MAX 999999999000)) <> INT_MAX.
Proof.
  destruct (elapsed_is_never_the_sentinel (run [Press; Elapse 2000000] initial))
    as (R & _).
  destruct (elapsed_is_never_the_sentinel (measuring INT_MAX 999999999000))
    as (_ & D).
  split.
  - apply R. apply reachable_run, reach_initial.
  - apply D.
    + unfold record_ok, INT_MAX. cbn. lia.
    + vm_compute. reflexivity.
    + apply fitsb_fits. vm_compute. reflexivity.
Defined.

(** ** The other rows of the transition table *)

(** C3 (as amended). A press in Idle moves to Armed, turns the green
    actuator off, clears the reaction flag and resets the Stopwatch.  The
    pending blink-idle callback is not cancelled but left in the slot; when
    it fires in Armed it arms nothing, so the blinking stops after that one
    firing, with the actuator still off. *)
Theorem idle_press w :
  state w = 0 ->
  state (user w) = 1 /\
  green (user w) = false /\
  reaction (user w) = false /\
  acc_us (t (user w)) = 0 /\
  start_us (t (user w)) = now w /\
  Stopwatch.elapsed_time (now (user w)) (t (user w)) = 0 /\
  timeout (user w) = timeout w /\
  (forall due d, timeout w = Some (CbTick, due) -> due <= now w + Z.of_N d ->
     timeout (run [Press; Elapse d; Fire] w) = None /\
     state (run [Press; Elapse d; Fire] w) = 1 /\
     green (run [Press; Elapse d; Fire] w) = false).
Proof.
  intros H0. world w. subst st.
  repeat (split; [reflexivity | ]).
  split.
  - cbn. unfold Stopwatch.slicetime. cbn. destruct (running tm); lia.
  - split; [reflexivity | ].
    intros due d -> Hdue. cbn [run fold_left step].
    unfold timeout_irq. cbn.
    destruct (Z.leb_spec due (nw + Z.of_N d)); [ | lia].
    cbn. auto.
Qed.

Lemma idle_press_witness :
  state initial = 0 /\
  state (user initial) = 1 /\
  green (user initial) = false /\
  timeout (user initial) = Some (CbTick, 100000) /\
  timeout (run [Press; Elapse 100000; Fire] initial) = None.
Proof.
  destruct (idle_press initial eq_refl) as (S & G & _ & _ & _ & _ & T & C).
  destruct (C 100000 100000%N eq_refl) as (T' & _); [cbn; lia | ].
  repeat split; assumption.
Defined.

(** C3 (as worded) fails on the first press after start-up: the blink-idle
    callback is still pending afterwards, and the Stopwatch has not been
    started. *)
Lemma idle_press_counterexample :
  state initial = 0 /\
  timeout (user initial) = Some (CbTick, 100000) /\
  running (t (user initial)) = false /\
  starts (t (user initial)) = starts (t initial) /\
  ~ spec_idle_press initial.
Proof.
  repeat split. intros (_ & T & _). discriminate T.
Qed.

(** C6 (as amended). From every state the reset forces Idle, clears the
    Reaction Record and both output buffers, turns the red actuator off and
    replaces whatever callback was pending by the idle blink armed on
    re-entering Idle.  The green actuator is not turned off: reset leaves it
    as it is, and re-entering Idle toggles it. *)
Theorem reset_press w :
  state (external w) = 0 /\
  timeout (external w) = Some (CbTick, now w + 100000) /\
  pB (external w) = INT_MAX /\
  elapsed (external w) = 0 /\
  reaction (external w) = false /\
  bufferElapsed (external w) = EmptyString /\
  bufferpB (external w) = EmptyString /\
  red (external_clear w) = false /\
  red (external w) = false /\
  green (external_clear w) = green w /\
  green (external w) = negb (green w).
Proof. world w. repeat split. Qed.

(** C6 (as worded) fails at start-up, where the green actuator is on: it is
    still on when reset is about to re-enter Idle.  After a press in Idle,
    where it is off, the reset leaves it on. *)
Lemma reset_press_counterexample :
  green initial = true /\
  green (external_clear initial) = true /\
  ~ spec_reset initial /\
  green (run [Press] initial) = false /\
  green (external (run [Press] initial)) = true.
Proof.
  repeat split. intros (_ & _ & _ & _ & _ & _ & G & _). discriminate G.
Qed.

Lemma premature_press_is_invalid w :
  state w = 1 -> reaction w = false -> valid_press w = false.
Proof.
  intros _ R. unfold valid_press. rewrite R. cbn. now rewrite andb_false_r.
Qed.

(** C7. A press that matches no other branch of [user] (the state is
    neither 0 nor 2 and the guard of the valid press fails, as for a press in
    state 1 before the reaction flag is set) puts the machine back to Idle
    and leaves the Reaction Record and both output buffers as they were.
    [user] being a total function, every value of [state] is handled. *)
Theorem invalid_press_resets_to_idle w :
  state w <> 0 -> valid_press w = false -> state w <> 2 ->
  state (user w) = 0 /\
  elapsed (user w) = elapsed w /\
  pB (user w) = pB w /\
  bufferElapsed (user w) = bufferElapsed w /\
  bufferpB (user w) = bufferpB w.
Proof.
  intros H0 V H2. unfold user, ite. rewrite V.
  destruct (Z.eqb_spec (state w) 0); [contradiction | ].
  destruct (Z.eqb_spec (state w) 2); [contradiction | ].
  unfold seq. destruct (tick_same (set_state 0 w)).
  repeat split; assumption.
Qed.

Lemma invalid_press_resets_to_idle_witness :
  state (user initial) = 1 /\
  reaction (user initial) = false /\
  state (user (user initial)) = 0 /\
  elapsed (user (user initial)) = elapsed (user initial) /\
  pB (user (user initial)) = pB (user initial) /\
  bufferElapsed (user (user initial)) = bufferElapsed (user initial) /\
  bufferpB (user (user initial)) = bufferpB (user initial).
Proof.
  split; [reflexivity | split; [reflexivity | ]].
  apply (invalid_press_resets_to_idle (user initial)).
  - discriminate.
  - apply premature_press_is_invalid; reflexivity.
  - discriminate.
Defined.

(** ** The callback scheduler *)

Lemma firings_empty ts : Scheduler.firings ts None = [].
Proof. induction ts as [ | n ts IH]; [reflexivity | exact IH]. Qed.

Lemma firings_pending ts cb due :
  Scheduler.firings ts (Some (cb, due)) =
  if existsb (fun n => due <=? n) ts then [(cb, due)] else [].
Proof.
  induction ts as [ | n ts IH]; [reflexivity | ].
  cbn [Scheduler.firings Scheduler.fire existsb].
  destruct (due <=? n); cbn [orb].
  - now rewrite firings_empty.
  - exact IH.
Qed.

(** C8. Arming a callback twice in succession leaves one pending callback,
    the one of the second arm: the slot is as if the first arm had not taken
    place, and whatever the instants [ts] at which the hardware looks at the
    slot, it fires once, with the due instant of the second arm, as soon as
    that instant is reached, and never otherwise.  Cancelling an empty slot
    leaves it empty, and nothing fires from a cancelled slot.  In the
    program, two resets in a row leave one idle-blink callback pending. *)
Theorem arming_twice_fires_once cb d1 d2 n1 n2 s ts w :
  Scheduler.attach cb d2 n2 (Scheduler.attach cb d1 n1 s) = Scheduler.attach cb d2 n2 s /\
  Scheduler.pending (Scheduler.attach cb d2 n2 (Scheduler.attach cb d1 n1 s)) = [cb] /\
  Scheduler.firings ts (Scheduler.attach cb d2 n2 (Scheduler.attach cb d1 n1 s)) =
    (if existsb (fun n => n2 + d2 <=? n) ts then [(cb, n2 + d2)] else []) /\
  Scheduler.detach None = None /\
  Scheduler.firings ts (Scheduler.detach s) = [] /\
  Scheduler.pending (timeout (run [Reset; Reset] w)) = [CbTick].
Proof.
  split; [reflexivity | split; [reflexivity | split]].
  - apply firings_pending.
  - split; [reflexivity | split; [apply firings_empty | ]].
    world w. reflexivity.
Qed.

Lemma tick_timeout w :
  timeout (tick w) =
  if state w =? 0 then Some (CbTick, now w + 100000)
  else if state w =? 1 then timeout w
  else if state w =? 2 then Some (CbBlinkRed, now w + 300000)
  else timeout w.
Proof. world w. program. fields. repeat (branch; try reflexivity). Qed.

(** C10. At every instant at most one callback is pending, whatever its
    class: both [tick] and [blinkRed] arm the one object [timeout], so that
    after [blinkRed], or after [tick] in state 2, the complete blink alone is
    pending, and after [tick] in state 0 the idle blink alone, whichever
    callback was pending before. *)
Theorem one_pending_callback w e :
  (List.length (Scheduler.pending (timeout w)) <= 1)%nat /\
  (List.length (Scheduler.pending (timeout (step e w))) <= 1)%nat /\
  Scheduler.pending (timeout (blinkRed w)) = [CbBlinkRed] /\
  Scheduler.pending (timeout (tick w)) =
    (if state w =? 0 then [CbTick]
     else if state w =? 1 then Scheduler.pending (timeout w)
     else if state w =? 2 then [CbBlinkRed]
     else Scheduler.pending (timeout w)).
Proof.
  assert (P : forall s, (List.length (Scheduler.pending s) <= 1)%nat)
    by (intros [[? ?] | ]; cbn; lia).
  split; [apply P | split; [apply P | split; [reflexivity | ]]].
  rewrite tick_timeout.
  destruct (state w =? 0); [reflexivity | ].
  destruct (state w =? 1); [reflexivity | ].
  destruct (state w =? 2); reflexivity.
Qed.

(** ** Runs of the program *)

(** A first measurement of 237 ms is the last and the best time, and the
    complete blink is armed. *)
Example first_measurement :
  let w := user (measuring INT_MAX 237000) in
  state w = 2 /\ elapsed w = 237 /\ pB w = 237 /\
  bufferElapsed w = "The time taken was 237 ms"%string /\
  bufferpB w = "Personal Best: 237 ms"%string /\
  green w = false /\ red w = true /\
  timeout w = Some (CbBlinkRed, 537000).
Proof. repeat split. Qed.

(** A measurement of 200 ms against a best time of 150 ms. *)
Example slower_measurement :
  let w := user (measuring 150 200000) in
  state w = 2 /\ elapsed w = 200 /\ pB w = 150 /\
  bufferpB w = "Personal Best: 150 ms"%string.
Proof. repeat split. Qed.

(** The reset after a first measurement of 237 ms. *)
Example reset_after_measurement :
  let w := external (user (measuring INT_MAX 237000)) in
  state w = 0 /\ elapsed w = 0 /\ pB w = INT_MAX /\
  bufferElapsed w = EmptyString /\ bufferpB w = EmptyString /\
  red w = false /\ timeout w = Some (CbTick, 337000).
Proof. repeat split. Qed.

(** From start-up, a press, two seconds and a second press: the second
    press finds the reaction flag unset and goes back to Idle. *)
Example press_wait_press :
  let w := run [Press; Elapse 2000000; Press] initial in
  state w = 0 /\ reaction w = false /\ pB w = INT_MAX /\ elapsed w = 0 /\
  bufferElapsed w = EmptyString /\ running (t w) = false.
Proof. repeat split. Qed.

(** ** The restart from Complete *)

(** X1. A press in Complete goes back to Idle, turns the red actuator off,
    toggles the green one and arms the idle blink in place of whatever was
    pending; the Reaction Record, both lines of the display, the reaction
    flag and the Timer are left as they were. *)
Theorem restart_press w :
  state w = 2 ->
  state (user w) = 0 /\
  red (user w) = false /\
  green (user w) = negb (green w) /\
  timeout (user w) = Some (CbTick, now w + 100000) /\
  pB (user w) = pB w /\
  elapsed (user w) = elapsed w /\
  bufferElapsed (user w) = bufferElapsed w /\
  bufferpB (user w) = bufferpB w /\
  reaction (user w) = reaction w /\
  t (user w) = t w.
Proof.
  intros H2. world w. subst st. repeat split.
Qed.

Lemma restart_press_witness :
  state (user (measuring INT_MAX 237000)) = 2 /\
  state (user (user (measuring INT_MAX 237000))) = 0 /\
  red (user (user (measuring INT_MAX 237000))) = false /\
  pB (user (user (measuring INT_MAX 237000))) = 237 /\
  bufferpB (user (user (measuring INT_MAX 237000))) = "Personal Best: 237 ms"%string.
Proof.
  destruct (restart_press (user (measuring INT_MAX 237000)) eq_refl)
    as (S & R & _ & _ & P & _ & _ & B & _).
  split; [reflexivity | split; [exact S | split; [exact R | split]]].
  - rewrite P. reflexivity.
  - rewrite B. reflexivity.
Defined.

(** ** The two blinks *)

Lemma run_app es1 es2 w : run (es1 ++ es2) w = run es2 (run es1 w).
Proof. unfold run. apply fold_left_app. Qed.

Lemma idle_period w :
  state w = 0 -> timeout w = Some (CbTick, now w + 100000) ->
  run [Elapse 100000; Fire] w =
  mkWorld (state w) (reaction w) (pB w) (elapsed w) (bufferElapsed w) (bufferpB w)
          (negb (green w)) (red w) (Some (CbTick, now w + 100000 + 100000))
          (t w) (lcd_clears w) (now w + 100000) (overrun w).
Proof.
  world w. intros -> ->. cbn [run fold_left step].
  unfold timeout_irq, set_now. fields. rewrite Z.leb_refl.
  cbn [run_callback Z.of_N]. program. fields. reflexivity.
Qed.

Lemma complete_period w :
  timeout w = Some (CbBlinkRed, now w + 300000) ->
  run [Elapse 300000; Fire] w =
  mkWorld (state w) (reaction w) (pB w) (elapsed w) (bufferElapsed w) (bufferpB w)
          (green w) (negb (red w)) (Some (CbBlinkRed, now w + 300000 + 300000))
          (t w) (lcd_clears w) (now w + 300000) (overrun w).
Proof.
  world w. intros ->. cbn [run fold_left step].
  unfold timeout_irq, set_now. fields. rewrite Z.leb_refl.
  cbn [run_callback Z.of_N]. program. fields. reflexivity.
Qed.

Lemma even_flip n (b : bool) :
  (if Nat.even (S n) then b else negb b) = (if Nat.even n then negb b else negb (negb b)).
Proof.
  rewrite Nat.even_succ, <- Nat.negb_even.
  destruct (Nat.even n), b; reflexivity.
Qed.

(** X2. In Idle, with the idle blink armed 100 ms ahead, [n] periods of
    100 ms each ending with the [Timeout] interrupt leave the machine in
    Idle with the next blink again 100 ms ahead; the green actuator has been
    toggled [n] times and nothing else has changed but the clock. *)
Theorem idle_blink n w :
  state w = 0 -> timeout w = Some (CbTick, now w + 100000) ->
  run (periods n 100000) w =
  mkWorld (state w) (reaction w) (pB w) (elapsed w) (bufferElapsed w) (bufferpB w)
          (if Nat.even n then green w else negb (green w)) (red w)
          (Some (CbTick, now w + 100000 * Z.of_nat n + 100000))
          (t w) (lcd_clears w) (now w + 100000 * Z.of_nat n) (overrun w).
Proof.
  revert w. induction n as [ | n IH]; intros w H0 HT.
  - world w. subst. cbn [run periods fold_left Nat.even Z.of_nat].
    f_equal; try lia; do 2 f_equal; lia.
  - change (periods (S n) 100000) with ([Elapse 100000; Fire] ++ periods n 100000).
    rewrite run_app, (idle_period w H0 HT).
    rewrite IH by (cbn [state timeout now]; trivial).
    cbn [state reaction pB elapsed bufferElapsed bufferpB green red timeout t
         lcd_clears now].
    rewrite even_flip.
    f_equal; try lia; do 2 f_equal; lia.
Qed.

Lemma idle_blink_witness :
  green (run (periods 3 100000) initial) = false /\
  timeout (run (periods 3 100000) initial) = Some (CbTick, 400000) /\
  state (run (periods 3 100000) initial) = 0.
Proof.
  assert (H0 : state initial = 0) by (vm_compute; reflexivity).
  assert (HT : timeout initial = Some (CbTick, now initial + 100000))
    by (vm_compute; reflexivity).
  rewrite (idle_blink 3 initial H0 HT). vm_compute. auto.
Defined.

(** X3. With the complete blink armed 300 ms ahead, [n] periods of 300 ms
    each ending with the [Timeout] interrupt toggle the red actuator [n]
    times and leave the next blink again 300 ms ahead, whatever the state:
    [blinkRed] re-arms itself without looking at [state].  Nothing else
    changes but the clock. *)
Theorem complete_blink n w :
  timeout w = Some (CbBlinkRed, now w + 300000) ->
  run (periods n 300000) w =
  mkWorld (state w) (reaction w) (pB w) (elapsed w) (bufferElapsed w) (bufferpB w)
          (green w) (if Nat.even n then red w else negb (red w))
          (Some (CbBlinkRed, now w + 300000 * Z.of_nat n + 300000))
          (t w) (lcd_clears w) (now w + 300000 * Z.of_nat n) (overrun w).
Proof.
  revert w. induction n as [ | n IH]; intros w HT.
  - world w. subst. cbn [run periods fold_left Nat.even Z.of_nat].
    f_equal; try lia; do 2 f_equal; lia.
  - change (periods (S n) 300000) with ([Elapse 300000; Fire] ++ periods n 300000).
    rewrite run_app, (complete_period w HT).
    rewrite IH by (cbn [state timeout now]; trivial).
    cbn [state reaction pB elapsed bufferElapsed bufferpB green red timeout t
         lcd_clears now].
    rewrite even_flip.
    f_equal; try lia; do 2 f_equal; lia.
Qed.

Lemma complete_blink_witness :
  timeout (user (measuring INT_MAX 237000)) = Some (CbBlinkRed, 537000) /\
  red (run (periods 2 300000) (user (measuring INT_MAX 237000))) = true /\
  red (run (periods 3 300000) (user (measuring INT_MAX 237000))) = false /\
  timeout (run (periods 3 300000) (user (measuring INT_MAX 237000)))
    = Some (CbBlinkRed, 1437000).
Proof.
  assert (HT : timeout (user (measuring INT_MAX 237000))
               = Some (CbBlinkRed, now (user (measuring INT_MAX 237000)) + 300000))
    by (vm_compute; reflexivity).
  rewrite (complete_blink 2 (user (measuring INT_MAX 237000)) HT).
  rewrite (complete_blink 3 (user (measuring INT_MAX 237000)) HT).
  vm_compute. auto.
Defined.

(** ** Armed, with nobody at the buttons *)

Lemma run_callback_green_armed cb w :
  state w = 1 -> green (run_callback cb w) = green w.
Proof.
  intros H1. destruct cb; cbn [run_callback]; [ | reflexivity].
  world w. subst st. reflexivity.
Qed.

Lemma untouched_armed e w :
  untouched e = true -> state w = 1 -> reaction w = false ->
  state (step e w) = 1 /\ reaction (step e w) = false /\
  green (step e w) = green w.
Proof.
  intros U H1 HR. destruct e; try discriminate U; cbn [step].
  - destruct (timeout_irq_same w) as [S _ _ _ _ _ _ _].
    split; [congruence | split].
    + destruct (timeout_irq_reaction w) as [R | R]; congruence.
    + destruct (timeout_irq_cases w) as [-> | (cb & due & _ & _ & ->)]; [reflexivity | ].
      now rewrite run_callback_green_armed.
  - split; [exact H1 | split; [exact HR | reflexivity]].
Qed.

(** X4. Once in Armed with the reaction flag unset, no sequence of
    [Timeout] interrupts and waiting gets the machine out of it: the state
    stays Armed, the flag unset, the green actuator as it was, the Timer
    stopped if it was, and the record and the display untouched.  Nothing
    but a button ends the wait. *)
Theorem armed_stays_armed es w :
  forallb untouched es = true -> state w = 1 -> reaction w = false ->
  state (run es w) = 1 /\
  reaction (run es w) = false /\
  green (run es w) = green w /\
  valid_press (run es w) = false /\
  running (t (run es w)) = running (t w) /\
  pB (run es w) = pB w /\
  elapsed (run es w) = elapsed w /\
  bufferElapsed (run es w) = bufferElapsed w /\
  bufferpB (run es w) = bufferpB w.
Proof.
  revert w. induction es as [ | e es IH]; intros w U H1 HR.
  - repeat split; try assumption. now apply premature_press_is_invalid.
  - cbn [forallb] in U. apply andb_prop in U as [Ue Ues].
    destruct (untouched_armed e w Ue H1 HR) as (S & R & G).
    change (run (e :: es) w) with (run es (step e w)).
    destruct (IH (step e w) Ues S R) as (S' & R' & G' & V' & T' & P' & E' & B1 & B2).
    assert (F : running (t (step e w)) = running (t w) /\ pB (step e w) = pB w /\
                elapsed (step e w) = elapsed w /\
                bufferElapsed (step e w) = bufferElapsed w /\
                bufferpB (step e w) = bufferpB w).
    { destruct e; try discriminate Ue; cbn [step].
      - destruct (timeout_irq_same w). auto.
      - auto. }
    destruct F as (F1 & F2 & F3 & F4 & F5).
    repeat split; congruence.
Qed.

Lemma armed_stays_armed_witness :
  state (run [Elapse 100000; Fire; Elapse 5000000; Fire] (user initial)) = 1 /\
  green (run [Elapse 100000; Fire; Elapse 5000000; Fire] (user initial)) = false /\
  valid_press (run [Elapse 100000; Fire; Elapse 5000000; Fire] (user initial)) = false.
Proof.
  destruct (armed_stays_armed [Elapse 100000; Fire; Elapse 5000000; Fire]
              (user initial) eq_refl eq_refl eq_refl) as (S & _ & G & V & _).
  split; [exact S | split; [rewrite G; reflexivity | exact V]].
Defined.

(** ** From start-up *)

Lemma dark_step e w : never_armed w -> dark w -> dark (step e w).
Proof.
  intros (Hre & _ & _ & Hst & _) (B1 & B2 & R & T).
  assert (V : valid_press w = false).
  { unfold valid_press. rewrite Hre. cbn. now rewrite andb_false_r. }
  destruct e; cbn [step].
  - unfold user, ite. rewrite V.
    destruct (Z.eqb_spec (state w) 0) as [E0 | E0].
    + world w. subst. unfold dark. cbn. auto.
    + destruct (Z.eqb_spec (state w) 2); [contradiction | ].
      world w. unfold dark. cbn. repeat split; try assumption. discriminate.
  - world w. unfold dark. cbn. repeat split. discriminate.
  - destruct (timeout_irq_cases w) as [-> | (cb & due & HT & _ & ->)];
      [now repeat split | ].
    destruct cb; [ | now apply T in HT].
    cbn [run_callback]. world w. subst. unfold dark, tick, ite, seq, skip. cbn.
    repeat match goal with
           | |- context [st =? ?k] => destruct (Z.eqb_spec st k)
           end; try contradiction; cbn; repeat split; discriminate.
  - world w. now repeat split.
Qed.

Lemma dark_tick w : never_armed w -> dark w -> dark (tick w).
Proof.
  intros (_ & _ & _ & Hst & _) (B1 & B2 & R & T).
  world w. subst. unfold dark, tick, ite, seq, skip. cbn.
  repeat match goal with
         | |- context [st =? ?k] => destruct (Z.eqb_spec st k)
         end; try contradiction; cbn; repeat split; (discriminate || assumption).
Qed.

Lemma dark_starting w : starting w -> dark w.
Proof.
  induction 1 as [ | e w H IH].
  - repeat split. discriminate.
  - apply dark_step; [now apply never_armed_starting | exact IH].
Qed.

Lemma reachable_zero_or_one w : reachable w -> state w = 0 \/ state w = 1.
Proof.
  intros H. destruct (never_armed_reachable w H) as (_ & _ & _ & N2 & _).
  assert (S : forall w0, starting w0 -> In (state w0) [0; 1; 2]).
  { induction 1 as [ | e w0 H0 IH].
    - cbn. tauto.
    - destruct (step_state e w0) as [-> | R]; assumption. }
  assert (R : In (state w) [0; 1; 2]).
  { induction H as [w0 H0 | e w Hw IH].
    - destruct (tick_same w0) as [-> _]. now apply S.
    - destruct (step_state e w) as [-> | R]; [ | assumption].
      apply IH. now destruct (never_armed_reachable w Hw) as (_ & _ & _ & N & _). }
  cbn in R. intuition congruence.
Qed.

(** X5. From start-up on, whatever the events, the display loop of [main]
    finds both lines empty, the red actuator is off, the complete blink is
    never pending and the Reaction Record holds no time: no result is ever
    shown. *)
Theorem nothing_is_ever_shown w :
  reachable w ->
  bufferElapsed w = EmptyString /\
  bufferpB w = EmptyString /\
  red w = false /\
  (forall due, timeout w <> Some (CbBlinkRed, due)) /\
  elapsed w = 0 /\
  pB w = INT_MAX.
Proof.
  intros H.
  assert (D : dark w).
  { induction H as [w0 H0 | e w Hw IH].
    - apply dark_tick; [now apply never_armed_starting | now apply dark_starting].
    - apply dark_step; [now apply never_armed_reachable | exact IH]. }
  destruct D as (B1 & B2 & R & T).
  destruct (never_armed_reachable w H) as (_ & _ & _ & _ & E & P).
  repeat split; assumption.
Qed.

Lemma nothing_is_ever_shown_witness :
  bufferElapsed (run [Press; Elapse 3000000; Press; Press; Fire] initial) = EmptyString /\
  red (run [Press; Elapse 3000000; Press; Press; Fire] initial) = false.
Proof.
  destruct (nothing_is_ever_shown (run [Press; Elapse 3000000; Press; Press; Fire] initial))
    as (B & _ & R & _).
  - apply reachable_run, reach_initial.
  - split; assumption.
Defined.

(** X6. From start-up on, the user button only toggles between Idle and
    Armed: a press in Idle gives Armed, a press in Armed gives Idle, and no
    other state occurs. *)
Theorem press_toggles_idle_and_armed w :
  reachable w ->
  (state w = 0 \/ state w = 1) /\ state (user w) = 1 - state w.
Proof.
  intros H. pose proof (reachable_zero_or_one w H) as S.
  split; [exact S | ].
  destruct (never_armed_reachable w H) as (Hre & _).
  assert (V : valid_press w = false).
  { unfold valid_press. rewrite Hre. cbn. now rewrite andb_false_r. }
  unfold user, ite. rewrite V. unfold seq.
  destruct S as [S | S]; rewrite S; cbn [Z.eqb Pos.eqb];
    match goal with |- context [tick ?x] => destruct (tick_same x) as [-> _] end;
    reflexivity.
Qed.

Lemma press_toggles_idle_and_armed_witness :
  state (user (run [Press; Elapse 1500000] initial)) =
  1 - state (run [Press; Elapse 1500000] initial).
Proof.
  apply (press_toggles_idle_and_armed (run [Press; Elapse 1500000] initial)).
  apply reachable_run, reach_initial.
Defined.

(** ** Resets and runs *)

(** X7. A second reset right after a first changes nothing but the green
    actuator, which is back to what it was before the two resets, and the
    count of [LCD] clears: the state, the record, the flag, the display, the
    red actuator, the pending callback and the Timer are those the first
    reset left.  Neither reset touches the Timer. *)
Theorem reset_twice w :
  external (external w) =
  set_lcd_clears (S (S (lcd_clears w))) (set_green (green w) (external w)) /\
  green (external (external w)) = green w /\
  t (external w) = t w.
Proof. world w. destruct gr; (split; [ | split]); vm_compute; reflexivity. Qed.

Lemma run_record_ok es w : record_ok w -> record_ok (run es w).
Proof.
  revert w. induction es as [ | e es IH]; intros w H; [exact H | ].
  apply IH. now apply record_ok_step.
Qed.

Lemma step_pB_le e w : not_reset e = true -> record_ok w -> pB (step e w) <= pB w.
Proof.
  intros N Hok. destruct e; try discriminate N; cbn [step].
  - now apply user_pB_le.
  - destruct (timeout_irq_same w). lia.
  - cbn. lia.
Qed.

(** X8. Over any sequence of events without a reset the best time only
    goes down or stays, and it stays within the range of a non-negative
    [int]; a sequence that ends with a reset leaves the sentinel. *)
Theorem best_time_over_a_run es w :
  record_ok w -> forallb not_reset es = true ->
  pB (run es w) <= pB w /\
  0 <= pB (run es w) <= INT_MAX /\
  pB (run (es ++ [Reset]) w) = INT_MAX.
Proof.
  intros Hok N. split; [ | split].
  - revert w Hok. induction es as [ | e es IH]; intros w Hok; [cbn; lia | ].
    cbn [forallb] in N. apply andb_prop in N as [Ne Nes].
    change (run (e :: es) w) with (run es (step e w)).
    pose proof (step_pB_le e w Ne Hok).
    pose proof (IH Nes (step e w) (record_ok_step e w Hok)). lia.
  - apply (run_record_ok es w Hok).
  - rewrite run_app. cbn [run fold_left step].
    unfold external, seq. destruct (tick_same (external_clear (run es w))) as [_ -> _].
    reflexivity.
Qed.

Lemma best_time_over_a_run_witness :
  pB (run [Press; Elapse 300000; Fire; Press] (measuring 237 150000)) <= 237 /\
  pB (run ([Press; Elapse 300000; Fire; Press] ++ [Reset]) (measuring 237 150000)) = INT_MAX.
Proof.
  assert (Hok : record_ok (measuring 237 150000))
    by (unfold record_ok, INT_MAX; cbn; lia).
  destruct (best_time_over_a_run [Press; Elapse 300000; Fire; Press]
              (measuring 237 150000) Hok eq_refl) as (L & _ & R).
  split; [exact L | exact R].
Defined.

(** ** The random delay of the earlier version *)

(** X9. Whatever non-negative [int] [std::rand()] returns, the global [r]
    of the earlier version of the program is initialised to one of 1, 2, 3,
    4, 5, and each of these is the value for some return of [std::rand()]. *)
Theorem r_is_one_to_five x :
  0 <= x <= INT_MAX ->
  1 <= r_init x <= 5 /\
  (forall k, 1 <= k <= 5 -> r_init (k - 1) = k).
Proof.
  intros Hx. unfold r_init, INT_MAX in *. split.
  - pose proof (Z.rem_bound_pos x 5 ltac:(lia) ltac:(lia)).
    rewrite to_int_small; lia.
  - intros k Hk. rewrite Z.rem_small by lia. rewrite to_int_small; lia.
Qed.

Lemma r_is_one_to_five_witness : 1 <= r_init 1804289383 <= 5.
Proof.
  apply (r_is_one_to_five 1804289383). unfold INT_MAX. lia.
Defined.

(** ** Which blink is pending *)

Lemma user_state_timeout w :
  (state (user w), timeout (user w)) =
  if state w =? 0 then (1, timeout w)
  else if valid_press w then (2, Some (CbBlinkRed, now w + 300000))
  else (0, Some (CbTick, now w + 100000)).
Proof.
  unfold user, ite.
  destruct (state w =? 0).
  - unfold seq. rewrite tick_timeout. now destruct (tick_same (set_green false (set_state 1 w))) as [-> _].
  - destruct (valid_press w).
    + destruct (user_valid_press_fields w) as (-> & _ & _ & _ & _ & _ & _ & _ & _ & ->).
      reflexivity.
    + destruct (state w =? 2); unfold seq;
        match goal with |- context [tick ?x] =>
          rewrite (tick_timeout x); destruct (tick_same x) as [-> _ _ _ _ _ _ _]
        end; reflexivity.
Qed.

Lemma blink_inv_press w : blink_inv w -> blink_inv (user w).
Proof.
  intros [I2 I0]. pose proof (user_state_timeout w) as E.
  unfold blink_inv.
  destruct (Z.eqb_spec (state w) 0) as [S0 | S0].
  - injection E as -> ->. split; [ | discriminate].
    split; [discriminate | ]. intros X. apply (proj2 I2) in X. lia.
  - destruct (valid_press w); injection E as -> ->.
    + split; [ | discriminate]. split; [now eexists | reflexivity].
    + split; [ | now eexists]. split; [discriminate | ]. intros [due X]. discriminate X.
Qed.

Lemma blink_inv_fire w : blink_inv w -> blink_inv (timeout_irq w).
Proof.
  intros [I2 I0].
  destruct (timeout_irq_cases w) as [-> | (cb & due & HT & _ & ->)]; [now split | ].
  destruct cb; cbn [run_callback]; unfold blink_inv.
  - assert (N2 : state w <> 2).
    { intros X. apply (proj1 I2) in X as [due' X]. congruence. }
    destruct (tick_same (set_timeout None w)) as [-> _].
    rewrite tick_timeout. cbn [state timeout now set_timeout].
    destruct (Z.eqb_spec (state w) 0) as [S0 | S0].
    + split; [ | now eexists]. split; [lia | ]. intros [d X]. discriminate X.
    + split; [ | contradiction].
      destruct (state w =? 1); [ | destruct (Z.eqb_spec (state w) 2); [contradiction | ]];
        (split; [contradiction | ]); intros [d X]; discriminate X.
  - assert (S2 : state w = 2) by (apply (proj2 I2); exists due; exact HT).
    destruct (blinkRed_same (set_timeout None w)) as [-> _]. cbn [state set_timeout].
    split; [ | lia]. split; [ | trivial]. intros _. now eexists.
Qed.

(** X10. The handlers keep the pending blink in step with the state: if
    the complete blink is pending exactly in state 2 and the idle blink is
    pending in state 0, the same holds after every event and after
    [reaction1].  It holds once [main] has called [tick()]. *)
Theorem blink_follows_state w e :
  blink_inv w ->
  blink_inv (step e w) /\ blink_inv (reaction1 w) /\ blink_inv initial.
Proof.
  intros I. split; [ | split].
  - destruct e; cbn [step].
    + now apply blink_inv_press.
    + clear I. world w. unfold blink_inv. vm_compute.
      split; [split; [discriminate | intros [d X]; discriminate X] | ].
      intros _. eexists. reflexivity.
    + now apply blink_inv_fire.
    + exact I.
  - exact I.
  - unfold blink_inv. vm_compute.
    split; [split; [discriminate | intros [d X]; discriminate X] | ].
    intros _. eexists. reflexivity.
Qed.

Lemma blink_follows_state_witness :
  blink_inv (user (measuring INT_MAX 237000)) /\
  blink_inv (step Press (user (measuring INT_MAX 237000))) /\
  blink_inv (step Fire (user (measuring INT_MAX 237000))).
Proof.
  assert (I : blink_inv (user (measuring INT_MAX 237000))).
  { unfold blink_inv. vm_compute.
    split; [split; [intros _; eexists; reflexivity | reflexivity] | discriminate]. }
  destruct (blink_follows_state (user (measuring INT_MAX 237000)) Press I) as (P & _).
  destruct (blink_follows_state (user (measuring INT_MAX 237000)) Fire I) as (F & _).
  split; [exact I | split; [exact P | exact F]].
Defined.

(** ** Undefined behaviour stays *)

Lemma overrun_step e w : overrun w = true -> overrun (step e w) = true.
Proof.
  intros O. destruct e; cbn [step].
  - destruct (valid_press w) eqn:V.
    + rewrite (user_on_valid_press w V).
      destruct (user_valid_press_fields w) as (_ & _ & _ & _ & _ & -> & _).
      now rewrite O.
    + now destruct (user_invalid_same w V) as (_ & _ & _ & _ & ->).
  - unfold external, seq. rewrite tick_overrun. exact O.
  - destruct (timeout_irq_cases w) as [-> | (cb & due & _ & _ & ->)]; [exact O | ].
    destruct cb; cbn [run_callback]; rewrite ?tick_overrun, ?blinkRed_overrun; exact O.
  - exact O.
Qed.

Lemma defined_before e w : overrun (step e w) = false -> overrun w = false.
Proof.
  intros H. destruct (overrun w) eqn:O; [ | reflexivity].
  rewrite (overrun_step e w O) in H. discriminate H.
Qed.

(** ** A whole measurement *)

Lemma waited_nonneg es : 0 <= waited es.
Proof. induction es as [ | [ | | | d] es IH]; cbn [waited]; lia. Qed.

(** With no callback pending, waiting is all that happens. *)
Lemma run_nothing_pending es w :
  timeout w = None -> forallb untouched es = true ->
  run es w = set_now (now w + waited es) w.
Proof.
  revert w. induction es as [ | e es IH]; intros w HT U.
  - world w. cbn [run fold_left waited]. unfold set_now. fields.
    f_equal. lia.
  - cbn [forallb] in U. apply andb_prop in U as [Ue Ues].
    change (run (e :: es) w) with (run es (step e w)).
    destruct e; try discriminate Ue; cbn [step waited].
    + unfold timeout_irq, Scheduler.fire. rewrite HT. now apply IH.
    + rewrite IH by assumption. world w. unfold set_now. fields.
      f_equal. lia.
Qed.

(** A press in Idle, a wait until the idle blink that was pending is due,
    its firing, and a second wait. *)
Lemma armed_after_the_blink w due d0 d1 :
  state w = 0 -> running (t w) = false ->
  timeout w = Some (CbTick, due) -> due <= now w + Z.of_N d0 ->
  run [Press; Elapse d0; Fire; Elapse d1] w =
  mkWorld 1 false (pB w) (elapsed w) (bufferElapsed w) (bufferpB w) false (red w)
          None (mkTimer false (now w + Z.of_N d0) 0 (starts (t w)))
          (lcd_clears w) (now w + Z.of_N d0 + Z.of_N d1) (overrun w).
Proof.
  world w. destruct tm as [rn su ac sn]. cbn [running starts].
  intros -> -> -> Hdue. cbn [run fold_left step].
  unfold timeout_irq. cbn.
  destruct (Z.leb_spec due (nw + Z.of_N d0)); [ | lia].
  cbn. reflexivity.
Qed.

(** X11. A whole measurement, as [reaction1] is written for.  From Idle
    with the Timer stopped: a press, a wait at the end of which the idle
    blink that was pending has fired, a further wait, [reaction1], any
    sequence [es] of waits and [Timeout] interrupts lasting less than 10^12
    microseconds, and a press.  The machine ends in Complete with the green
    actuator off and the Timer stopped; [elapsed] is the whole milliseconds
    waited after [reaction1], the delay before it not counting; the best
    time is the smaller of the old one and [elapsed]; both lines of the
    display show these values and no array is overrun. *)
Theorem measured_time w due d0 d1 es :
  record_ok w -> overrun w = false ->
  state w = 0 -> running (t w) = false ->
  timeout w = Some (CbTick, due) -> due <= now w + Z.of_N d0 ->
  forallb untouched es = true -> waited es < 10 ^ 12 ->
  let w' := user (run es (reaction1 (run [Press; Elapse d0; Fire; Elapse d1] w))) in
  state w' = 2 /\
  elapsed w' = waited es / 1000 /\
  pB w' = Z.min (pB w) (waited es / 1000) /\
  bufferElapsed w' = Fmt.time_taken (waited es / 1000) /\
  bufferpB w' = Fmt.personal_best (Z.min (pB w) (waited es / 1000)) /\
  green w' = false /\
  running (t w') = false /\
  overrun w' = false.
Proof.
  intros Hok HO H0 HR HT Hdue U HW.
  rewrite (armed_after_the_blink w due d0 d1 H0 HR HT Hdue).
  set (w1 := reaction1 _).
  rewrite (run_nothing_pending es w1 eq_refl U).
  set (w2 := set_now _ w1). intros w'.
  pose proof (waited_nonneg es) as HN.
  assert (V : valid_press w2 = true) by reflexivity.
  assert (Hok2 : record_ok w2).
  { destruct Hok as [Hp _]. split; [exact Hp | cbn; lia]. }
  assert (M : t_elapsed_ms w2 = waited es / 1000).
  { unfold t_elapsed_ms, Stopwatch.millis, Stopwatch.elapsed_time, Stopwatch.slicetime.
    cbn [w2 w1 reaction1 seq set_elapsed set_green t_start set_reaction set_now set_t
         Stopwatch.start now t running acc_us start_us].
    replace (0 + (now w + Z.of_N d0 + Z.of_N d1 + waited es
                  - (now w + Z.of_N d0 + Z.of_N d1))) with (waited es) by lia.
    apply Z.quot_div_nonneg; lia. }
  assert (B : 0 <= waited es / 1000 < 10 ^ 9).
  { change (10 ^ 12) with (1000000000 * 1000) in HW.
    change (10 ^ 9) with 1000000000.
    split; [apply Z.div_pos; lia | apply Z.div_lt_upper_bound; lia]. }
  assert (U64 : to_uint64 (t_elapsed_ms w2) = waited es / 1000).
  { rewrite M. apply to_uint64_small. change (10 ^ 9) with 1000000000 in B. lia. }
  assert (F : fits (Fmt.time_taken (to_uint64 (t_elapsed_ms w2)))).
  { rewrite U64. apply fits_time_taken; lia. }
  destruct (user_record w2 Hok2 V) as (E & P & S). fold w' in E, P, S.
  destruct (completion_defined w2 Hok2 V F) as (O & _). fold w' in O.
  rewrite U64 in E.
  assert (P' : pB w' = Z.min (pB w) (waited es / 1000)).
  { rewrite P, E. change (pB w2) with (pB w).
    destruct (Z.ltb_spec (waited es / 1000) (pB w)); lia. }
  unfold w' in *. rewrite (user_on_valid_press w2 V) in *.
  destruct (user_valid_press_fields w2) as (_ & _ & _ & B1 & B2 & _ & G & T & _).
  rewrite U64 in B1.
  split; [exact S | split; [exact E | split; [exact P' | ]]].
  split; [exact B1 | split; [ | split; [exact G | split; [exact T | ]]]].
  - rewrite <- P'. rewrite B2. f_equal.
    destruct (user_valid_press_fields w2) as (_ & _ & <- & _). reflexivity.
  - rewrite O. exact HO.
Qed.

Lemma measured_time_witness :
  elapsed (user (run [Elapse 100000; Fire; Elapse 137000]
                   (reaction1 (run [Press; Elapse 100000; Fire; Elapse 1900000] initial))))
    = 237 /\
  pB (user (run [Elapse 100000; Fire; Elapse 137000]
              (reaction1 (run [Press; Elapse 100000; Fire; Elapse 1900000] initial))))
    = 237 /\
  state (user (run [Elapse 100000; Fire; Elapse 137000]
                 (reaction1 (run [Press; Elapse 100000; Fire; Elapse 1900000] initial))))
    = 2.
Proof.
  assert (Hok : record_ok initial) by (apply record_ok_reachable, reach_tick, start_main).
  assert (HT : timeout initial = Some (CbTick, 100000)) by (vm_compute; reflexivity).
  assert (Hdue : 100000 <= now initial + Z.of_N 100000) by (vm_compute; discriminate).
  assert (HW : waited [Elapse 100000; Fire; Elapse 137000] < 10 ^ 12)
    by (vm_compute; reflexivity).
  destruct (measured_time initial 100000 100000 1900000
              [Elapse 100000; Fire; Elapse 137000]
              Hok eq_refl eq_refl eq_refl HT Hdue eq_refl HW) as (S & E & P & _).
  split; [rewrite E; reflexivity | split; [rewrite P; reflexivity | exact S]].
Defined.

(** ** What the display shows *)

Lemma user_buffers w :
  valid_press w = true ->
  bufferElapsed (user w) = Fmt.time_taken (elapsed (user w)) /\
  bufferpB (user w) = Fmt.personal_best (pB (user w)).
Proof.
  intros V. rewrite (user_on_valid_press w V).
  destruct (user_valid_press_fields w) as (_ & E & P & B1 & B2 & _).
  cbv zeta in E, P, B1, B2. rewrite B1, B2, E, P. split; reflexivity.
Qed.

Lemma timeout_irq_overrun w : overrun (timeout_irq w) = overrun w.
Proof.
  destruct (timeout_irq_cases w) as [-> | (cb & due & _ & _ & ->)]; [reflexivity | ].
  destruct cb; cbn [run_callback]; rewrite ?tick_overrun, ?blinkRed_overrun; reflexivity.
Qed.

Lemma display_ok_same w w' :
  pB w' = pB w -> bufferElapsed w' = bufferElapsed w -> bufferpB w' = bufferpB w ->
  overrun w' = overrun w ->
  display_ok w -> display_ok w'.
Proof.
  unfold display_ok. intros -> -> -> ->. trivial.
Qed.

(** X12. As long as no array has been overrun the display is never stale
    about the best time: if both lines are empty, or the first shows a
    measured time below 10^9 ms and the second the current best time with
    the best time not above the time shown, then the same holds after every
    event and after [reaction1].  It holds at start-up. *)
Theorem display_shows_the_best_time w e :
  record_ok w -> display_ok w ->
  display_ok (step e w) /\ display_ok (reaction1 w) /\ display_ok (main_init globals).
Proof.
  intros Hok D. split; [ | split].
  - destruct e; cbn [step].
    + destruct (valid_press w) eqn:V.
      * intros O. right. exists (elapsed (user w)).
        destruct (user_record w Hok V) as (E & P & _).
        destruct (user_buffers w V) as (B1 & B2).
        assert (F : fits (Fmt.time_taken (to_uint64 (t_elapsed_ms w)))).
        { rewrite (completion_overrun w Hok V) in O.
          apply orb_false_elim in O as [_ O]. apply negb_false_iff in O.
          now apply fitsb_fits. }
        destruct (completion_defined w Hok V F) as (_ & L).
        split; [split; [rewrite E; apply to_uint64_range | exact L] | ].
        split; [exact B1 | split; [exact B2 | ]].
        rewrite P. destruct (Z.ltb_spec (elapsed (user w)) (pB w)); lia.
      * destruct (user_invalid_same w V) as (P & B1 & B2 & _ & O).
        now apply (display_ok_same w).
    + intros _. left. clear. world w. split; reflexivity.
    + destruct (timeout_irq_same w).
      apply (display_ok_same w); trivial. apply timeout_irq_overrun.
    + exact D.
  - exact D.
  - intros _. left. split; reflexivity.
Qed.

Lemma display_shows_the_best_time_witness :
  display_ok (measuring 150 200000) /\
  display_ok (step Press (measuring 150 200000)) /\
  bufferpB (step Press (measuring 150 200000)) = "Personal Best: 150 ms"%string.
Proof.
  assert (Hok : record_ok (measuring 150 200000))
    by (unfold record_ok, INT_MAX; cbn; lia).
  assert (D : display_ok (measuring 150 200000)) by (intros _; left; split; reflexivity).
  destruct (display_shows_the_best_time (measuring 150 200000) Press Hok D) as (P & _).
  split; [exact D | split; [exact P | vm_compute; reflexivity]].
Defined.

(** ** The texts and the room of the buffers *)

(** X13. A completion press writes past the end of an array exactly when
    the stopwatch reads 10^9 ms or more: the text of the measured time then
    has no room in the 32 [char]s of [bufferElapsed], while the text of the
    best time always has room in [bufferpB].  When it reads less, the two
    buffers hold the texts of [elapsed] and of [pB], each with its
    terminating zero. *)
Theorem texts_and_buffers w :
  record_ok w -> valid_press w = true -> overrun w = false ->
  (overrun (user w) = false <-> to_uint64 (t_elapsed_ms w) < 10 ^ 9) /\
  (overrun (user w) = false ->
   bufferElapsed (user w) = Fmt.time_taken (elapsed (user w)) /\
   fits (bufferElapsed (user w)) /\
   bufferpB (user w) = Fmt.personal_best (pB (user w)) /\
   fits (bufferpB (user w))).
Proof.
  intros Hok V O.
  pose proof (to_uint64_range (t_elapsed_ms w)) as R.
  assert (I : overrun (user w) = false <-> to_uint64 (t_elapsed_ms w) < 10 ^ 9).
  { rewrite (completion_overrun w Hok V), O. cbn [orb].
    rewrite negb_false_iff, fitsb_fits. apply fits_time_taken. lia. }
  split; [exact I | ].
  intros O'. apply I in O'.
  destruct (user_buffers w V) as (B1 & B2).
  destruct (user_record w Hok V) as (E & _).
  destruct (record_ok_step Press w Hok) as [Hp _]. cbn [step] in Hp.
  split; [exact B1 | split; [ | split; [exact B2 | ]]].
  - rewrite B1, E. apply fits_time_taken; [lia | exact O'].
  - rewrite B2. apply fits_personal_best. unfold INT_MAX in Hp. lia.
Qed.

Lemma texts_and_buffers_witness :
  overrun (user (measuring INT_MAX 999999999000)) = false /\
  fits (bufferElapsed (user (measuring INT_MAX 999999999000))) /\
  overrun (user (measuring INT_MAX 1000000000000)) <> false.
Proof.
  assert (Hok : forall us, record_ok (measuring INT_MAX us))
    by (intros us; unfold record_ok, INT_MAX; cbn; lia).
  assert (V : valid_press (measuring INT_MAX 999999999000) = true)
    by (vm_compute; reflexivity).
  assert (V' : valid_press (measuring INT_MAX 1000000000000) = true)
    by (vm_compute; reflexivity).
  destruct (texts_and_buffers (measuring INT_MAX 999999999000) (Hok _) V eq_refl)
    as (I & B).
  destruct (texts_and_buffers (measuring INT_MAX 1000000000000) (Hok _) V' eq_refl)
    as (I' & _).
  assert (O : overrun (user (measuring INT_MAX 999999999000)) = false).
  { apply I. vm_compute. reflexivity. }
  split; [exact O | split; [apply (B O) | ]].
  intros X. apply I' in X. vm_compute in X. discriminate X.
Defined.
